(** * Camera-pose converters of 3DGS-to-PC: a shallow embedding

    The two scripts under [utils/] turn camera calibration data into the
    [transforms.json] document of the 3DGS-to-PC pipeline:

    - [convert_nuscenes_to_json.py] reads a directory of 4x4 extrinsics and a
      directory of intrinsics;
    - [convert_cameras_json.py] remaps the records of a [cameras.json] file.

    Strings are byte strings (UTF-8 keeps the code-point order of Python's
    [str] comparison).  Numbers stored in numpy arrays are elements of an
    abstract type [F]; [np.matmul] and [np.linalg.inv] are parameters of the
    development.  Files, directory listings, log records and [print] output
    live in an explicit world threaded through a state-and-exception monad. *)

From Stdlib Require Import Ascii String QArith Qcanon Field.
From stdpp Require Import gmap strings list fin_maps sorting.

Local Open Scope string_scope.
Local Open Scope list_scope.

(** ** Python string operations *)

(** [s.endswith(suffix)] *)
Fixpoint endswith (s suffix : string) : bool :=
  if String.eqb s suffix then true
  else match s with
       | EmptyString => false
       | String _ s' => endswith s' suffix
       end.

(** [s.startswith(prefix)] *)
Definition startswith (s prefix : string) : bool := String.prefix prefix s.

(** [s.split(sep)] for a one-character separator. *)
Fixpoint split (sep : ascii) (s : string) : list string :=
  match s with
  | EmptyString => [EmptyString]
  | String c s' =>
      if Ascii.eqb c sep then EmptyString :: split sep s'
      else match split sep s' with
           | part :: parts => String c part :: parts
           | [] => [String c EmptyString]
           end
  end.

(** The character [c] occurs in [s]. *)
Fixpoint occurs (c : ascii) (s : string) : Prop :=
  match s with
  | EmptyString => False
  | String a s' => a = c \/ occurs c s'
  end.

(** [s[:-4]] *)
Definition drop_last4 (s : string) : string :=
  String.substring 0 (String.length s - 4) s.

(** [os.path.join(a, b)] on a POSIX system. *)
Definition os_path_join (a b : string) : string :=
  if startswith b "/" then b
  else if String.eqb a "" || endswith a "/" then a ++ b
       else a ++ "/" ++ b.

(** [os.path.basename(p)]: what follows the last slash. *)
Fixpoint os_path_basename (p : string) : string :=
  match p with
  | EmptyString => EmptyString
  | String c p' =>
      if Ascii.eqb c "/" then os_path_basename p'
      else if existsb (Ascii.eqb "/") (list_ascii_of_string p')
           then os_path_basename p'
           else p
  end.

(** Python orders [str] values lexicographically. *)
Definition str_le (s1 s2 : string) : Prop := String.leb s1 s2 = true.

Global Instance str_le_dec : RelDecision str_le.
Proof. intros s1 s2. unfold str_le. apply _. Defined.

(** [sorted(xs)] on strings. *)
Definition sorted (xs : list string) : list string := merge_sort str_le xs.

(** ** numpy arrays and nested Python lists *)

(** An [ndarray] is its shape and its elements in row-major order. *)
Record ndarray (F : Type) := NdArray { shape : list nat; data : list F }.
Arguments NdArray {F}.
Arguments shape {F}.
Arguments data {F}.

(** What [ndarray.tolist()] returns and what [json] holds for an array. *)
#[warnings="-register-all"]
Inductive nested (F : Type) :=
| Num (x : F)
| Lst (items : list (nested F)).
Arguments Num {F}.
Arguments Lst {F}.

Section Arrays.
Context {F : Type}.

(** [list_prod shape]: the number of elements below one index. *)
Definition chunk (shape : list nat) : nat := foldr Nat.mul 1 shape.

Fixpoint tolist_aux (sh : list nat) (d : list F) : nested F :=
  match sh with
  | [] => match d with x :: _ => Num x | [] => Lst [] end
  | n :: sh' =>
      Lst (map (fun i => tolist_aux sh' (take (chunk sh') (drop (i * chunk sh') d)))
               (seq 0 n))
  end.

(** [a.tolist()] *)
Definition tolist (a : ndarray F) : nested F := tolist_aux (shape a) (data a).

(** [np.array(v)] of a nested list: [None] stands for the [ValueError]
    raised on an inhomogeneous shape. *)
Fixpoint np_array (v : nested F) : option (ndarray F) :=
  match v with
  | Num x => Some (NdArray [] [x])
  | Lst items =>
      let arrays :=
        (fix go (l : list (nested F)) : option (list (ndarray F)) :=
           match l with
           | [] => Some []
           | v' :: l' =>
               match np_array v', go l' with
               | Some a, Some r => Some (a :: r)
               | _, _ => None
               end
           end) items in
      match arrays with
      | None => None
      | Some [] => Some (NdArray [0] [])
      | Some (a0 :: r) =>
          if forallb (fun a => bool_decide (shape a = shape a0)) r
          then Some (NdArray (length items :: shape a0)
                             (concat (map data (a0 :: r))))
          else None
      end
  end.

(** Broadcasting of [d], of shape [src], to the shape [tgt] of the same
    rank, every source dimension being the target's or 1. *)
Fixpoint broadcast_data (src tgt : list nat) (d : list F) : list F :=
  match src, tgt with
  | s :: src', t :: tgt' =>
      flat_map (fun i => broadcast_data src' tgt'
                  (if Nat.eqb s t
                   then take (chunk src') (drop (i * chunk src') d)
                   else d))
               (seq 0 t)
  | _, _ => d
  end.

Fixpoint broadcastable (src tgt : list nat) : bool :=
  match src, tgt with
  | [], [] => true
  | s :: src', t :: tgt' =>
      (Nat.eqb s t || Nat.eqb s 1) && broadcastable src' tgt'
  | _, _ => false
  end.

(** Leading dimensions of size 1 that an assignment drops from the value
    while it has more dimensions than the target. *)
Fixpoint strip_leading_ones (n : nat) (src : list nat) : list nat :=
  match n, src with
  | S n', 1 :: src' => strip_leading_ones n' src'
  | _, _ => src
  end.

(** The values written by [target[...] = value] when the indexed region
    has shape [tgt]; [None] stands for numpy's [ValueError]
    (could not broadcast input array). *)
Definition broadcast_to (value : ndarray F) (tgt : list nat) : option (list F) :=
  let src := strip_leading_ones (length (shape value) - length tgt) (shape value) in
  let src := replicate (length tgt - length src) 1 ++ src in
  if broadcastable src tgt then Some (broadcast_data src tgt (data value))
  else None.
End Arrays.

(** ** The output document *)

(** The dictionary returned by [load_intrinsics]. *)
Record intrinsics (F : Type) := Intrinsics {
  i_fx : F; i_fy : F; i_cx : F; i_cy : F; i_width : Z; i_height : Z }.
Arguments Intrinsics {F}.
Arguments i_fx {F}.
Arguments i_fy {F}.
Arguments i_cx {F}.
Arguments i_cy {F}.
Arguments i_width {F}.
Arguments i_height {F}.

(** The per-frame keys ["fl_x"], ["fl_y"], ["cx"], ["cy"], ["w"], ["h"]. *)
Record frame_intrinsics (F : Type) := FrameIntrinsics {
  fl_x : F; fl_y : F; cx : F; cy : F; w : Z; h : Z }.
Arguments FrameIntrinsics {F}.
Arguments fl_x {F}.
Arguments fl_y {F}.
Arguments cx {F}.
Arguments cy {F}.
Arguments w {F}.
Arguments h {F}.

(** One entry of ["frames"]; [per_frame] is absent when the six intrinsics
    keys were not added. *)
Record frame (F : Type) := Frame {
  file_path : string;
  transform_matrix : nested F;
  per_frame : option (frame_intrinsics F) }.
Arguments Frame {F}.
Arguments file_path {F}.
Arguments transform_matrix {F}.
Arguments per_frame {F}.

(** The top-level keys ["fl_x"], ["fl_y"], ["w"], ["h"] of the flat schema. *)
Record global_intrinsics (F : Type) := GlobalIntrinsics {
  g_fl_x : F; g_fl_y : F; g_w : Z; g_h : Z }.
Arguments GlobalIntrinsics {F}.
Arguments g_fl_x {F}.
Arguments g_fl_y {F}.
Arguments g_w {F}.
Arguments g_h {F}.

(** The [transforms] dictionary handed to [json.dump]. *)
Record transforms (F : Type) := Transforms {
  globals : option (global_intrinsics F);
  frames : list (frame F) }.
Arguments Transforms {F}.
Arguments globals {F}.
Arguments frames {F}.

(** One record of [cameras.json]. *)
Record camera (F : Type) := Camera {
  img_name : string;
  cam_width : Z;
  cam_height : Z;
  position : nested F;
  rotation : nested F;
  cam_fx : F;
  cam_fy : F }.
Arguments Camera {F}.
Arguments img_name {F}.
Arguments cam_width {F}.
Arguments cam_height {F}.
Arguments position {F}.
Arguments rotation {F}.
Arguments cam_fx {F}.
Arguments cam_fy {F}.

(** ** Exceptions, log records and the world *)

Inductive exn :=
| OSError (path : string)
| JSONDecodeError (path : string)
| ValueError_loadtxt (path : string)
| ValueError_shape (filepath : string) (found : list nat)
| ValueError_intrinsics (intrinsics_file : string) (found : nat)
| ValueError_empty_cameras
| ValueError_inhomogeneous
| ValueError_broadcast
| TypeError_len_unsized
| TypeError_format
| TypeError_none
| IndexError
| KeyError (key : string)
| LinAlgError
| NotImplementedError (msg : string)
| AssertionError (msg : option string).

Inductive level := INFO | WARNING | ERROR.

(** The messages of the two scripts, with the values their f-strings
    interpolate. *)
Inductive message (F : Type) :=
| Scanning_extrinsics_directory (extrinsics_dir : string)
| No_extrinsics_files_found (extrinsics_dir : string)
| Found_potential_files (n : nat)
| Loaded_extrinsics_for (key : string)
| Loaded_extrinsics_files (valid_files total : nat)
| Intrinsics_file_not_found (intrinsics_file : string)
| Loaded_intrinsics_from (basename : string) (fx fy cx cy : F)
| Loading_extrinsics_from (extrinsics_path : string)
| No_extrinsics_data_loaded
| Loading_all_intrinsics_from (intrinsics_path : string)
| Detected_cameras (ids : list string)
| Loading_intrinsics_for_camera (cam_id : string)
| Loaded_intrinsics_for_cameras (n : nat)
| Applying_camera_alignment (first_camera_name : string)
| Could_not_load_first_camera_pose (first_camera_name : string)
| No_front_camera_found
| Saving_transforms_to (output_path : string)
| Converted_camera_frames (n : nat) (output_path : string)
| Multi_camera_summary (n : nat)
| Camera_summary (cam_id : string) (width height : Z) (fx fy : F)
| Converted_cameras (n : nat) (input_path output_path : string)
| Image_resolution (width height : Z)
| Focal_lengths (fx fy : F).
Arguments Scanning_extrinsics_directory {F}.
Arguments No_extrinsics_files_found {F}.
Arguments Found_potential_files {F}.
Arguments Loaded_extrinsics_for {F}.
Arguments Loaded_extrinsics_files {F}.
Arguments Intrinsics_file_not_found {F}.
Arguments Loaded_intrinsics_from {F}.
Arguments Loading_extrinsics_from {F}.
Arguments No_extrinsics_data_loaded {F}.
Arguments Loading_all_intrinsics_from {F}.
Arguments Detected_cameras {F}.
Arguments Loading_intrinsics_for_camera {F}.
Arguments Loaded_intrinsics_for_cameras {F}.
Arguments Applying_camera_alignment {F}.
Arguments Could_not_load_first_camera_pose {F}.
Arguments No_front_camera_found {F}.
Arguments Saving_transforms_to {F}.
Arguments Converted_camera_frames {F}.
Arguments Multi_camera_summary {F}.
Arguments Camera_summary {F}.
Arguments Converted_cameras {F}.
Arguments Image_resolution {F}.
Arguments Focal_lengths {F}.

(** What the scripts do to their environment, in order. *)
Inductive event (F : Type) :=
| Log (lvl : level) (msg : message F)
| Stdout (msg : message F)
| Listdir (path : string)
| PathExists (path : string)
| Loadtxt (path : string)
| JsonLoad (path : string)
| JsonDump (path : string) (doc : transforms F).
Arguments Log {F}.
Arguments Stdout {F}.
Arguments Listdir {F}.
Arguments PathExists {F}.
Arguments Loadtxt {F}.
Arguments JsonLoad {F}.
Arguments JsonDump {F}.

(** A file is seen through the reader that opens it: the array
    [np.loadtxt] parses from it, the records [json.load] finds in it, or
    neither; [TransformsJson] is a document written by [json.dump]. *)
Inductive file (F : Type) :=
| NumericText (a : ndarray F)
| CamerasJson (cameras_data : list (camera F))
| TransformsJson (doc : transforms F)
| OtherFile.
Arguments NumericText {F}.
Arguments CamerasJson {F}.
Arguments TransformsJson {F}.
Arguments OtherFile {F}.

(** Directories with their listing in the order [os.listdir] returns it,
    files by path, and the events so far, oldest first. *)
Record world (F : Type) := World {
  fs_dirs : gmap string (list string);
  fs_files : gmap string (file F);
  trace : list (event F) }.
Arguments World {F}.
Arguments fs_dirs {F}.
Arguments fs_files {F}.
Arguments trace {F}.

Inductive outcome (A : Type) :=
| Raised (e : exn)
| Returned (a : A).
Arguments Raised {A}.
Arguments Returned {A}.

(** A computation returns or raises, and leaves a world behind. *)
Definition M (F A : Type) : Type := world F -> outcome A * world F.

Section Monad.
Context {F : Type}.

Definition ret {A} (a : A) : M F A := fun st => (Returned a, st).

Definition bind {A B} (m : M F A) (k : A -> M F B) : M F B :=
  fun st => match m st with
            | (Returned a, st') => k a st'
            | (Raised e, st') => (Raised e, st')
            end.

Definition raise {A} (e : exn) : M F A := fun st => (Raised e, st).

Definition emit (e : event F) : M F unit :=
  fun st => (Returned tt, World (fs_dirs st) (fs_files st) (trace st ++ [e])).

Definition logger (lvl : level) (msg : message F) : M F unit := emit (Log lvl msg).

Definition print (msg : message F) : M F unit := emit (Stdout msg).

(** The local variables a loop updates are its state [s]; an exception
    in the body leaves the loop. *)
Fixpoint for_each {A S} (xs : list A) (body : A -> S -> M F S) (s : S) : M F S :=
  match xs with
  | [] => ret s
  | x :: xs' => bind (body x s) (for_each xs' body)
  end.
End Monad.

Global Instance M_ret {F} : MRet (M F) := fun A => @ret F A.
Global Instance M_bind {F} : MBind (M F) := fun A B k m => @bind F A B m k.

Section Environment.
Context {F : Type}.

(** [os.listdir(path)] *)
Definition os_listdir (path : string) : M F (list string) :=
  emit (Listdir path) ;;
  ((fun st => match fs_dirs st !! path with
              | Some names => (Returned names, st)
              | None => (Raised (OSError path), st)
              end) : M F (list string)).

(** [os.path.exists(path)] *)
Definition os_path_exists (path : string) : M F bool :=
  emit (PathExists path) ;;
  ((fun st => (Returned (bool_decide (is_Some (fs_dirs st !! path)
                                      \/ is_Some (fs_files st !! path))), st))
   : M F bool).

(** [np.loadtxt(path)] *)
Definition np_loadtxt (path : string) : M F (ndarray F) :=
  emit (Loadtxt path) ;;
  ((fun st => match fs_files st !! path with
              | Some (NumericText a) => (Returned a, st)
              | Some _ => (Raised (ValueError_loadtxt path), st)
              | None => (Raised (OSError path), st)
              end) : M F (ndarray F)).

(** [with open(path, 'r') as f: json.load(f)] *)
Definition json_load (path : string) : M F (list (camera F)) :=
  emit (JsonLoad path) ;;
  ((fun st => match fs_files st !! path with
              | Some (CamerasJson cameras_data) => (Returned cameras_data, st)
              | Some _ => (Raised (JSONDecodeError path), st)
              | None => (Raised (OSError path), st)
              end) : M F (list (camera F))).

(** [with open(path, 'w') as f: json.dump(doc, f, indent=2)] *)
Definition json_dump (doc : transforms F) (path : string) : M F unit :=
  fun st => match fs_dirs st !! path with
            | Some _ => (Raised (OSError path), st)
            | None =>
                (Returned tt,
                 World (fs_dirs st) (<[path := TransformsJson doc]> (fs_files st))
                       (trace st ++ [JsonDump path doc]))
            end.
End Environment.

(** ** utils/convert_nuscenes_to_json.py *)

(** The message of the [NotImplementedError] of line 169. *)
Definition single_camera_message : string :=
  "Single camera mode is not implemented yet. Please set --multi_camera to True.".

Section Nuscenes.
Context {F : Type}.

(** [np.matmul] on the 4x4 arrays the script hands it. *)
Variable matmul : ndarray F -> ndarray F -> ndarray F.
(** [np.linalg.inv]; [None] stands for [LinAlgError] (singular matrix). *)
Variable inv : ndarray F -> option (ndarray F).

(** The body of the loop over [files] (lines 55-66); the loop updates
    [extrinsics] and [valid_files]. *)
Definition load_extrinsics_file (extrinsics_dir filename : string)
    (s : gmap string (ndarray F) * nat) : M F (gmap string (ndarray F) * nat) :=
  let '(extrinsics, valid_files) := s in
  let filepath := os_path_join extrinsics_dir filename in
  matrix ← np_loadtxt filepath ;
  if bool_decide (shape matrix = [4; 4]) then
    logger INFO (Loaded_extrinsics_for (drop_last4 filename)) ;;
    ret (<[drop_last4 filename := matrix]> extrinsics, S valid_files)
  else raise (ValueError_shape filepath (shape matrix)).

Definition load_extrinsics_from_directory (extrinsics_dir : string)
    : M F (gmap string (ndarray F)) :=
  logger INFO (Scanning_extrinsics_directory extrinsics_dir) ;;
  names ← os_listdir extrinsics_dir ;
  let files := List.filter (fun f => endswith f ".txt") names in
  match files with
  | [] =>
      logger ERROR (No_extrinsics_files_found extrinsics_dir) ;;
      ret ∅
  | _ =>
      logger INFO (Found_potential_files (length files)) ;;
      '(extrinsics, valid_files) ←
        for_each files (load_extrinsics_file extrinsics_dir) (∅, 0) ;
      logger INFO (Loaded_extrinsics_files valid_files (length files)) ;;
      ret extrinsics
  end.

(** [None] is Python's [None]. *)
Definition load_intrinsics (intrinsics_path camera_id : string) (width height : Z)
    : M F (option (intrinsics F)) :=
  let intrinsics_file := os_path_join intrinsics_path (camera_id ++ ".txt") in
  found ← os_path_exists intrinsics_file ;
  if negb found then
    logger ERROR (Intrinsics_file_not_found intrinsics_file) ;;
    ret None
  else
    data ← np_loadtxt intrinsics_file ;
    match shape data with
    | [] => raise TypeError_len_unsized
    | n :: rest =>
        if (4 <=? n)%nat then
          match rest, data with
          | [], NdArray _ (fx :: fy :: cx :: cy :: _) =>
              logger INFO (Loaded_intrinsics_from (os_path_basename intrinsics_file)
                             fx fy cx cy) ;;
              ret (Some (Intrinsics fx fy cx cy width height))
          | [], _ => raise IndexError
          | _ :: _, _ => raise TypeError_format
          end
        else raise (ValueError_intrinsics intrinsics_file n)
    end.

(** [extrinsics.keys()] *)
Definition keys (extrinsics : gmap string (ndarray F)) : list string :=
  (map_to_list extrinsics).*1.

(** Lines 145-150: the camera ids of the names that split in two. *)
Definition detect_camera_ids (extrinsics : gmap string (ndarray F)) : gset string :=
  foldl (fun camera_ids camera_name =>
           match split "_" camera_name with
           | [_; cam_id] => camera_ids ∪ {[cam_id]}
           | _ => camera_ids
           end) ∅ (keys extrinsics).

(** The body of the loop over [sorted(camera_ids)] (lines 155-158); the
    loop updates [all_intrinsics]. *)
Definition load_camera_intrinsics (intrinsics_path : string) (width height : Z)
    (cam_id : string) (all_intrinsics : gmap string (option (intrinsics F)))
    : M F (gmap string (option (intrinsics F))) :=
  logger INFO (Loading_intrinsics_for_camera cam_id) ;;
  intrinsics ← load_intrinsics intrinsics_path cam_id width height ;
  ret (<[cam_id := intrinsics]> all_intrinsics).

(** Lines 142 and 155-158. *)
Definition load_all_intrinsics (intrinsics_path : string) (width height : Z)
    (camera_ids : gset string) : M F (gmap string (option (intrinsics F))) :=
  for_each (sorted (elements camera_ids))
    (load_camera_intrinsics intrinsics_path width height) ∅.

(** Line 175. *)
Definition first_frame_candidates (extrinsics : gmap string (ndarray F))
    : list string :=
  List.filter (fun name => endswith name "_0") (sorted (keys extrinsics)).

(** Lines 172-184. *)
Definition load_camera_front_start (extrinsics_path : string)
    (extrinsics : gmap string (ndarray F)) : M F (option (ndarray F)) :=
  found ← os_path_exists extrinsics_path ;
  if (found : bool) then
    match first_frame_candidates extrinsics with
    | first_camera_name :: _ =>
        match extrinsics !! first_camera_name with
        | Some pose =>
            logger INFO (Applying_camera_alignment first_camera_name) ;;
            ret (Some pose)
        | None =>
            logger WARNING (Could_not_load_first_camera_pose first_camera_name) ;;
            ret None
        end
    | [] =>
        logger WARNING No_front_camera_found ;;
        ret None
    end
  else ret None.

(** Lines 199-203. *)
Definition image_path_of (images_dir : option string) (camera_name image_ext : string)
    : string :=
  match images_dir with
  | Some d => if String.eqb d "" then "images/" ++ camera_name ++ image_ext
              else d ++ "/" ++ camera_name ++ image_ext
  | None => "images/" ++ camera_name ++ image_ext
  end.

(** The body of the loop over [sorted(extrinsics.keys())] (lines 187-226);
    the loop appends to [transforms["frames"]]. *)
Definition process_frame (extrinsics : gmap string (ndarray F))
    (all_intrinsics : gmap string (option (intrinsics F)))
    (camera_front_start : option (ndarray F))
    (images_dir : option string) (image_ext : string) (multi_camera : bool)
    (camera_name : string) (frames : list (frame F)) : M F (list (frame F)) :=
  transform_matrix ← match extrinsics !! camera_name with
                     | Some m => ret m
                     | None => raise (KeyError camera_name)
                     end ;
  transform_matrix ← match camera_front_start with
                     | Some c =>
                         match inv c with
                         | Some c_inv => ret (matmul c_inv transform_matrix)
                         | None => raise LinAlgError
                         end
                     | None => ret transform_matrix
                     end ;
  let image_path := image_path_of images_dir camera_name image_ext in
  let frame := Frame image_path (tolist transform_matrix) None in
  frame ← (if multi_camera then
             match split "_" camera_name with
             | [_; cam_id] =>
                 match all_intrinsics !! cam_id with
                 | None => raise (AssertionError None)
                 | Some None => raise TypeError_none
                 | Some (Some cam_intrinsics) =>
                     ret (Frame image_path (tolist transform_matrix)
                             (Some (FrameIntrinsics
                                      (i_fx cam_intrinsics) (i_fy cam_intrinsics)
                                      (i_cx cam_intrinsics) (i_cy cam_intrinsics)
                                      (i_width cam_intrinsics)
                                      (i_height cam_intrinsics))))
                 end
             | _ => raise (AssertionError (Some camera_name))
             end
           else ret frame) ;
  ret (frames ++ [frame]).

(** Lines 235-242. *)
Definition log_summary (multi_camera : bool) (camera_ids : gset string)
    (all_intrinsics : gmap string (option (intrinsics F))) : M F unit :=
  if multi_camera then
    logger INFO (Multi_camera_summary (size camera_ids)) ;;
    for_each (sorted (elements camera_ids))
      (fun cam_id (_ : unit) =>
         match all_intrinsics !! cam_id with
         | None => raise (KeyError cam_id)
         | Some None => raise TypeError_none
         | Some (Some cam_intrinsics) =>
             logger INFO (Camera_summary cam_id
                            (i_width cam_intrinsics) (i_height cam_intrinsics)
                            (i_fx cam_intrinsics) (i_fy cam_intrinsics))
         end) tt
  else raise (KeyError "w").

Definition convert_nuscenes_to_transforms
    (extrinsics_path intrinsics_path output_path : string)
    (images_dir : option string) (image_ext : string) (width height : Z)
    (camera_id : string) (apply_nerf_transform multi_camera : bool) : M F bool :=
  logger INFO (Loading_extrinsics_from extrinsics_path) ;;
  extrinsics ← load_extrinsics_from_directory extrinsics_path ;
  if bool_decide (extrinsics = ∅) then
    logger ERROR No_extrinsics_data_loaded ;;
    ret false
  else
    '(all_intrinsics, camera_ids) ←
      (if multi_camera then
         logger INFO (Loading_all_intrinsics_from intrinsics_path) ;;
         let camera_ids := detect_camera_ids extrinsics in
         logger INFO (Detected_cameras (sorted (elements camera_ids))) ;;
         all_intrinsics ← load_all_intrinsics intrinsics_path width height camera_ids ;
         logger INFO (Loaded_intrinsics_for_cameras (size camera_ids)) ;;
         ret (all_intrinsics, camera_ids)
       else
         raise (NotImplementedError single_camera_message)) ;
    camera_front_start ← load_camera_front_start extrinsics_path extrinsics ;
    frames ← for_each (sorted (keys extrinsics))
               (process_frame extrinsics all_intrinsics camera_front_start
                  images_dir image_ext multi_camera) [] ;
    logger INFO (Saving_transforms_to output_path) ;;
    json_dump (Transforms None frames) output_path ;;
    logger INFO (Converted_camera_frames (size extrinsics) output_path) ;;
    log_summary multi_camera camera_ids all_intrinsics ;;
    ret true.
End Nuscenes.

(** ** utils/convert_cameras_json.py *)

Section Cameras.
Context {F : Type}.
Variables zero one : F.

(** [np.eye(n)] *)
Definition np_eye (n : nat) : ndarray F :=
  NdArray [n; n]
    (flat_map (fun i => map (fun j => if Nat.eqb i j then one else zero) (seq 0 n))
              (seq 0 n)).

(** [a[:nrows, :ncols] = value] on a two-dimensional [a]. *)
Definition setitem_block (a : ndarray F) (nrows ncols : nat) (value : ndarray F)
    : option (ndarray F) :=
  match shape a with
  | [R; C] =>
      let nrows := Nat.min nrows R in
      let ncols := Nat.min ncols C in
      match broadcast_to value [nrows; ncols] with
      | Some vals =>
          Some (NdArray (shape a)
                  (imap (fun idx x =>
                           let i := (idx / C)%nat in
                           let j := (idx mod C)%nat in
                           if (i <? nrows)%nat && (j <? ncols)%nat
                           then default x (vals !! (i * ncols + j)%nat)
                           else x)
                        (data a)))
      | None => None
      end
  | _ => None
  end.

(** [a[:nrows, col] = value] on a two-dimensional [a]. *)
Definition setitem_column (a : ndarray F) (nrows col : nat) (value : ndarray F)
    : option (ndarray F) :=
  match shape a with
  | [R; C] =>
      let nrows := Nat.min nrows R in
      match broadcast_to value [nrows] with
      | Some vals =>
          Some (NdArray (shape a)
                  (imap (fun idx x =>
                           let i := (idx / C)%nat in
                           let j := (idx mod C)%nat in
                           if (i <? nrows)%nat && Nat.eqb j col
                           then default x (vals !! i)
                           else x)
                        (data a)))
      | None => None
      end
  | _ => None
  end.

(** The body of the loop over [cameras_data] (lines 39-55). *)
Definition convert_camera (cam : camera F) (frames : list (frame F))
    : M F (list (frame F)) :=
  match np_array (rotation cam), np_array (position cam) with
  | Some rotation, Some position =>
      let transform_matrix := np_eye 4 in
      match setitem_block transform_matrix 3 3 rotation with
      | Some transform_matrix =>
          match setitem_column transform_matrix 3 3 position with
          | Some transform_matrix =>
              let frame := Frame ("images/" ++ img_name cam ++ ".jpg")
                                 (tolist transform_matrix) None in
              ret (frames ++ [frame])
          | None => raise ValueError_broadcast
          end
      | None => raise ValueError_broadcast
      end
  | _, _ => raise ValueError_inhomogeneous
  end.

Definition convert_cameras_to_transforms (input_path output_path : string) : M F unit :=
  cameras_data ← json_load input_path ;
  match cameras_data with
  | [] => raise ValueError_empty_cameras
  | first_cam :: _ =>
      let globals := GlobalIntrinsics (cam_fx first_cam) (cam_fy first_cam)
                                      (cam_width first_cam) (cam_height first_cam) in
      frames ← for_each cameras_data convert_camera [] ;
      json_dump (Transforms (Some globals) frames) output_path ;;
      print (Converted_cameras (length cameras_data) input_path output_path) ;;
      print (Image_resolution (g_w globals) (g_h globals)) ;;
      print (Focal_lengths (g_fl_x globals) (g_fl_y globals))
  end.
End Cameras.

(** ** A numeric kernel with exact arithmetic

    Over the rationals the matrix product and the inverse of a 4x4 matrix
    can be written out; the converters run on concrete inputs with this
    kernel. *)

Module Exact.
Local Open Scope Qc_scope.

Definition zero : Qc := 0.
Definition one : Qc := 1.

(** Element [(i, j)] of a two-dimensional array with [ncols] columns. *)
Definition entry (d : list Qc) (ncols i j : nat) : Qc :=
  default 0 (d !! (i * ncols + j)%nat).

(** [np.matmul] of an [m x k] by a [k x n] array. *)
Definition matmul (a b : ndarray Qc) : ndarray Qc :=
  match shape a, shape b with
  | [m; k], [_; n] =>
      NdArray [m; n]
        (flat_map (fun i =>
           map (fun j =>
                  foldr Qcplus 0
                    (map (fun l => entry (data a) k i l * entry (data b) n l j)
                         (seq 0 k)))
               (seq 0 n))
           (seq 0 m))
  | _, _ => a
  end.

(** The determinant of a 4x4 matrix, by 2x2 minors of its upper and
    lower halves. *)
Definition det4 (a b c d e f g h i j k l m n o p : Qc) : Qc :=
  (a * f - e * b) * (k * p - o * l) - (a * g - e * c) * (j * p - n * l)
  + (a * h - e * d) * (j * o - n * k) + (b * g - f * c) * (i * p - m * l)
  - (b * h - f * d) * (i * o - m * k) + (c * h - g * d) * (i * n - m * j).

(** [np.linalg.inv] of a 4x4 array: the adjugate over the determinant;
    [None] for a singular matrix, and for what is not a 4x4 array. *)
Definition inv (x : ndarray Qc) : option (ndarray Qc) :=
  match shape x, data x with
  | [4%nat; 4%nat], [a; b; c; d; e; f; g; h; i; j; k; l; m; n; o; p] =>
      let s0 := a * f - e * b in let s1 := a * g - e * c in
      let s2 := a * h - e * d in let s3 := b * g - f * c in
      let s4 := b * h - f * d in let s5 := c * h - g * d in
      let c5 := k * p - o * l in let c4 := j * p - n * l in
      let c3 := j * o - n * k in let c2 := i * p - m * l in
      let c1 := i * o - m * k in let c0 := i * n - m * j in
      let det := det4 a b c d e f g h i j k l m n o p in
      if Qc_eq_bool det 0 then None
      else Some (NdArray [4%nat; 4%nat]
        [ (f * c5 - g * c4 + h * c3) / det; (- b * c5 + c * c4 - d * c3) / det;
          (n * s5 - o * s4 + p * s3) / det; (- j * s5 + k * s4 - l * s3) / det;
          (- e * c5 + g * c2 - h * c1) / det; (a * c5 - c * c2 + d * c1) / det;
          (- m * s5 + o * s2 - p * s1) / det; (i * s5 - k * s2 + l * s1) / det;
          (e * c4 - f * c2 + h * c0) / det; (- a * c4 + b * c2 - d * c0) / det;
          (m * s4 - n * s2 + p * s0) / det; (- i * s4 + j * s2 - l * s0) / det;
          (- e * c3 + f * c1 - g * c0) / det; (a * c3 - b * c1 + c * c0) / det;
          (- m * s3 + n * s1 - o * s0) / det; (i * s3 - j * s1 + k * s0) / det ])
  | _, _ => None
  end.
End Exact.

(** ** Vocabulary of the statements *)

Section Vocabulary.
Context {F : Type}.

(** Two worlds hold the same directories and files. *)
Definition fs_equiv (st st' : world F) : Prop :=
  fs_dirs st = fs_dirs st' /\ fs_files st = fs_files st'.

(** The outcome of [m], and the files it leaves, do not depend on the
    events recorded so far. *)
Definition respectful {A} (m : M F A) : Prop :=
  forall st st', fs_equiv st st' ->
    (m st).1 = (m st').1 /\ fs_equiv (m st).2 (m st').2.

(** [m] leaves directories and files as they are. *)
Definition read_only {A} (m : M F A) : Prop :=
  forall st, fs_equiv (m st).2 st.


(** Every event [m] adds to the trace satisfies [P]. *)
Definition emits {A} (P : event F -> Prop) (m : M F A) : Prop :=
  forall st, exists evs, trace (m st).2 = trace st ++ evs /\ Forall P evs.

(** The value lines 172-184 leave in [camera_front_start] when
    [extrinsics_path] exists. *)
Definition reference_pose (extrinsics : gmap string (ndarray F))
    : option (ndarray F) :=
  match first_frame_candidates extrinsics with
  | first_camera_name :: _ => extrinsics !! first_camera_name
  | [] => None
  end.


(** The document found at [path]. *)
Definition document_at (st : world F) (path : string) : option (transforms F) :=
  match fs_files st !! path with
  | Some (TransformsJson doc) => Some doc
  | _ => None
  end.

(** [files] of line 46: the names that end in [".txt"]. *)
Definition txt_files (names : list string) : list string :=
  List.filter (fun f => endswith f ".txt") names.

(** What one turn of the loop over [files] reads from [filename]: the
    4x4 array of the file, or the exception of [np.loadtxt] or of the
    shape test. *)
Definition read_extrinsics (st : world F) (extrinsics_dir filename : string)
    : outcome (ndarray F) :=
  let filepath := os_path_join extrinsics_dir filename in
  match fs_files st !! filepath with
  | Some (NumericText matrix) =>
      if bool_decide (shape matrix = [4; 4]) then Returned matrix
      else Raised (ValueError_shape filepath (shape matrix))
  | Some _ => Raised (ValueError_loadtxt filepath)
  | None => Raised (OSError filepath)
  end.

(** The dictionary the loop over [files] builds from [extrinsics]. *)
Definition extrinsics_of (st : world F) (extrinsics_dir : string)
    (files : list string) (extrinsics : gmap string (ndarray F))
    : gmap string (ndarray F) :=
  foldl (fun extrinsics filename =>
           match read_extrinsics st extrinsics_dir filename with
           | Returned matrix => <[drop_last4 filename := matrix]> extrinsics
           | Raised _ => extrinsics
           end) extrinsics files.

(** The camera component of a key that splits in two on ["_"]. *)
Definition camera_component (key : string) : option string :=
  match split "_" key with
  | [_; cam_id] => Some cam_id
  | _ => None
  end.
End Vocabulary.

Section FrameVocabulary.
Context {F : Type}.
Variable matmul : ndarray F -> ndarray F -> ndarray F.
Variable inv : ndarray F -> option (ndarray F).

(** [fr] is the frame of [key], read off the loaded [extrinsics] and the
    intrinsics file of the key's camera: the path, the six intrinsics
    keys, and the pose aligned to the reference pose when there is one. *)
Definition frame_of_key (st : world F) (intrinsics_path : string)
    (images_dir : option string) (image_ext : string) (width height : Z)
    (extrinsics : gmap string (ndarray F)) (key : string) (fr : frame F) : Prop :=
  exists raw timestep cam_id n fx fy cx cy rest,
    extrinsics !! key = Some raw /\
    split "_" key = [timestep; cam_id] /\
    fs_files st !! os_path_join intrinsics_path (cam_id ++ ".txt")
      = Some (NumericText (NdArray [n] (fx :: fy :: cx :: cy :: rest))) /\
    file_path fr = image_path_of images_dir key image_ext /\
    per_frame fr = Some (FrameIntrinsics fx fy cx cy width height) /\
    match reference_pose extrinsics with
    | Some reference =>
        exists reference_inverse,
          inv reference = Some reference_inverse /\
          transform_matrix fr = tolist (matmul reference_inverse raw)
    | None => transform_matrix fr = tolist raw
    end.
End FrameVocabulary.

(** ** Sample inputs

    Worlds over the rationals on which the converters run with the exact
    kernel. *)

Module Samples.
Definition q (z : Z) : Qc := Q2Qc (inject_Z z).

Definition matrix44 (zs : list Z) : ndarray Qc := NdArray [4; 4] (map q zs).

(** A camera turned about its z axis, stretched along it and moved. *)
Definition turned44 : ndarray Qc :=
  matrix44 [0; -1; 0; 1;  1; 0; 0; 2;  0; 0; 2; 3;  0; 0; 0; 1]%Z.

(** A camera moved by (1, 0, 0). *)
Definition shifted44 : ndarray Qc :=
  matrix44 [1; 0; 0; 1;  0; 1; 0; 0;  0; 0; 1; 0;  0; 0; 0; 1]%Z.

Definition matrix33 : ndarray Qc :=
  NdArray [3; 3] (map q [1; 0; 0;  0; 1; 0;  0; 0; 1]%Z).

(** The line [500 500 320 240 0 0] of an intrinsics file. *)
Definition intrinsics_line : ndarray Qc :=
  NdArray [6] (map q [500; 500; 320; 240; 0; 0]%Z).

(** Two frames of the front camera, listed out of order beside a file
    that is not a matrix. *)
Definition two_frames : world Qc :=
  World {[ "extrinsics" := ["001_0.txt"; "000_0.txt"; "notes.md"] ]}
        {[ "extrinsics/000_0.txt" := NumericText turned44;
           "extrinsics/001_0.txt" := NumericText shifted44;
           "intrinsics/0.txt" := NumericText intrinsics_line ]} [].

Definition two_frames_extrinsics : gmap string (ndarray Qc) :=
  {[ "000_0" := turned44; "001_0" := shifted44 ]}.

(** The same files, listed in another order. *)
Definition two_frames_relisted : world Qc :=
  World {[ "extrinsics" := ["notes.md"; "000_0.txt"; "001_0.txt"] ]}
        (fs_files two_frames) [].



(** A 3x3 matrix among the extrinsics. *)
Definition bad_shape : world Qc :=
  World {[ "extrinsics" := ["000_0.txt"; "001_0.txt"] ]}
        {[ "extrinsics/000_0.txt" := NumericText turned44;
           "extrinsics/001_0.txt" := NumericText matrix33;
           "intrinsics/0.txt" := NumericText intrinsics_line ]} [].

(** The two frames without the intrinsics file of their camera. *)
Definition missing_intrinsics : world Qc :=
  World {[ "extrinsics" := ["001_0.txt"; "000_0.txt"] ]}
        {[ "extrinsics/000_0.txt" := NumericText turned44;
           "extrinsics/001_0.txt" := NumericText shifted44 ]} [].

(** An extrinsics directory without any file. *)
Definition empty_directory : world Qc :=
  World {[ "extrinsics" := [] ]} ∅ [].

(** A [cameras.json] of one record. *)
Definition one_camera : camera Qc :=
  Camera "frame_00001" 640 480
    (Lst [Num (q 7); Num (q 8); Num (q 9)])
    (Lst [Lst [Num (q 0); Num (q (-1)); Num (q 0)];
          Lst [Num (q 1); Num (q 0); Num (q 0)];
          Lst [Num (q 0); Num (q 0); Num (q 1)]])
    (q 500) (q 510).

Definition cameras_file : world Qc :=
  World ∅ {[ "cameras.json" := CamerasJson [one_camera] ]} [].

(** The nuScenes converter on the directories of the samples. *)
Definition run (images_dir : option string) (multi_camera : bool)
    : M Qc bool :=
  convert_nuscenes_to_transforms Exact.matmul Exact.inv
    "extrinsics" "intrinsics" "transforms.json" images_dir ".jpg" 1600 900 "0"
    false multi_camera.
End Samples.

(** ** The command line of convert_nuscenes_to_json.py *)

(** The [Namespace] that [parser.parse_args()] returns, defaults filled
    in. *)
Record namespace := Namespace {
  args_root : string;
  args_extrinsics_dir : string;
  args_intrinsics_dir : string;
  args_output : string;
  args_camera_id : string;
  args_multi_camera : bool;
  args_images_dir : string;
  args_image_ext : string;
  args_width : Z;
  args_height : Z;
  args_apply_nerf_transform : bool }.

Section Main.
Context {F : Type}.
Variable matmul : ndarray F -> ndarray F -> ndarray F.
Variable inv : ndarray F -> option (ndarray F).

(** [main()] after [parse_args] (lines 266-285), returning the status the
    process exits with: [exit(1)] is the status 1, coming to the end of
    [main] is the status 0; an exception of the conversion propagates. *)
Definition main (args : namespace) : M F Z :=
  let extrinsics_dir := os_path_join (args_root args) (args_extrinsics_dir args) in
  let intrinsics_dir := os_path_join (args_root args) (args_intrinsics_dir args) in
  success ← convert_nuscenes_to_transforms matmul inv
              extrinsics_dir intrinsics_dir (args_output args)
              (Some (args_images_dir args)) (args_image_ext args)
              (args_width args) (args_height args) (args_camera_id args)
              (args_apply_nerf_transform args) (args_multi_camera args) ;
  if negb success then ret 1%Z else ret 0%Z.
End Main.

(** ** More sample inputs *)

Module MoreSamples.
Import Samples.

(** An extrinsics directory that lists no [.txt] name. *)
Definition only_notes : world Qc :=
  World {[ "extrinsics" := ["notes.md"; "README"] ]} ∅ [].

(** A key with two separators beside a key of the front camera. *)
Definition three_part_key : world Qc :=
  World {[ "extrinsics" := ["000_1_0.txt"; "001_0.txt"] ]}
        {[ "extrinsics/000_1_0.txt" := NumericText turned44;
           "extrinsics/001_0.txt" := NumericText shifted44;
           "intrinsics/0.txt" := NumericText intrinsics_line;
           "intrinsics/1.txt" := NumericText intrinsics_line ]} [].

Definition three_part_key_extrinsics : gmap string (ndarray Qc) :=
  {[ "000_1_0" := turned44; "001_0" := shifted44 ]}.

(** A front camera whose first pose is the zero matrix. *)
Definition zeros44 : ndarray Qc :=
  matrix44 [0; 0; 0; 0;  0; 0; 0; 0;  0; 0; 0; 0;  0; 0; 0; 0]%Z.

Definition singular_reference : world Qc :=
  World {[ "extrinsics" := ["000_0.txt"; "001_0.txt"] ]}
        {[ "extrinsics/000_0.txt" := NumericText zeros44;
           "extrinsics/001_0.txt" := NumericText shifted44;
           "intrinsics/0.txt" := NumericText intrinsics_line ]} [].

Definition singular_reference_extrinsics : gmap string (ndarray Qc) :=
  {[ "000_0" := zeros44; "001_0" := shifted44 ]}.



(** What the loop over the camera ids builds on the two frames. *)
Definition two_frames_intrinsics : gmap string (option (intrinsics Qc)) :=
  {[ "0" := Some (Intrinsics (q 500) (q 500) (q 320) (q 240) 1600 900) ]}.

(** The command line [--root "" --output transforms.json], and the same
    with [--multi_camera]. *)
Definition single_camera_args : namespace :=
  Namespace "" "extrinsics" "intrinsics" "transforms.json" "0" false
            "images" ".jpg" 1600 900 false.

Definition multi_camera_args : namespace :=
  Namespace "" "extrinsics" "intrinsics" "transforms.json" "0" true
            "images" ".jpg" 1600 900 false.

(** A [cameras.json] that holds the empty list. *)
Definition no_cameras : world Qc :=
  World ∅ {[ "cameras.json" := CamerasJson [] ]} [].

(** A record whose position has two values. *)
Definition flat_camera : camera Qc :=
  Camera "frame_00002" 640 480
    (Lst [Num (q 7); Num (q 8)])
    (rotation one_camera) (q 500) (q 510).

Definition flat_position : world Qc :=
  World ∅ {[ "cameras.json" := CamerasJson [one_camera; flat_camera] ]} [].
End MoreSamples.

(** * Properties *)

Local Open Scope string_scope.

(** ** Strings *)
Lemma ascii_compare_eq a b : Ascii.compare a b = Eq <-> a = b.
Proof.
  split; [apply Ascii.compare_eq_iff|intros ->].
  unfold Ascii.compare. apply N.compare_refl.
Qed.

Lemma ascii_compare_trans_lt a b c :
  Ascii.compare a b = Lt -> Ascii.compare b c = Lt -> Ascii.compare a c = Lt.
Proof.
  unfold Ascii.compare. rewrite !N.compare_lt_iff. lia.
Qed.

Lemma string_compare_refl s : String.compare s s = Eq.
Proof.
  induction s as [|a s IH]; simpl; [done|].
  by rewrite (proj2 (ascii_compare_eq a a) eq_refl).
Qed.

Lemma string_compare_lt_trans s1 : forall s2 s3,
  String.compare s1 s2 = Lt -> String.compare s2 s3 = Lt -> String.compare s1 s3 = Lt.
Proof.
  induction s1 as [|a s1 IH]; intros [|b s2] [|c s3]; simpl; try done.
  destruct (Ascii.compare a b) eqn:Hab; try done;
    destruct (Ascii.compare b c) eqn:Hbc; try done; intros H1 H2.
  - apply ascii_compare_eq in Hab, Hbc. subst.
    rewrite (proj2 (ascii_compare_eq c c) eq_refl). eauto.
  - apply ascii_compare_eq in Hab. subst. by rewrite Hbc.
  - apply ascii_compare_eq in Hbc. subst. by rewrite Hab.
  - by rewrite (ascii_compare_trans_lt _ _ _ Hab Hbc).
Qed.

Global Instance str_le_total : Total str_le.
Proof. intros s1 s2. apply String.leb_total. Qed.

Global Instance str_le_antisymm : AntiSymm (=) str_le.
Proof. intros s1 s2. apply String.leb_antisym. Qed.

Global Instance str_le_refl : Reflexive str_le.
Proof. intros s. unfold str_le, String.leb. by rewrite string_compare_refl. Qed.

Global Instance str_le_trans : Transitive str_le.
Proof.
  intros s1 s2 s3. unfold str_le, String.leb.
  destruct (String.compare s1 s2) eqn:H12; try done;
    destruct (String.compare s2 s3) eqn:H23; try done; intros _ _.
  - apply String.compare_eq_iff in H12, H23. subst. by rewrite string_compare_refl.
  - apply String.compare_eq_iff in H12. subst. by rewrite H23.
  - apply String.compare_eq_iff in H23. subst. by rewrite H12.
  - by rewrite (string_compare_lt_trans _ _ _ H12 H23).
Qed.

Lemma sorted_StronglySorted xs : StronglySorted str_le (sorted xs).
Proof. apply StronglySorted_merge_sort; apply _. Qed.

Lemma sorted_Permutation xs : sorted xs ≡ₚ xs.
Proof. apply merge_sort_Permutation. Qed.

Lemma elem_of_sorted x xs : x ∈ sorted xs <-> x ∈ xs.
Proof. by rewrite sorted_Permutation. Qed.

(** split *)
Lemma split_not_nil sep s : split sep s <> [].
Proof.
  destruct s as [|a s]; simpl; [done|].
  destruct (Ascii.eqb a sep); [done|]. by destruct (split sep s).
Qed.


Lemma split_singleton sep s part :
  split sep s = [part] -> part = s /\ ~ occurs sep s.
Proof.
  revert part. induction s as [|a s IH]; intros part; simpl.
  - intros [= <-]. tauto.
  - destruct (Ascii.eqb_spec a sep) as [->|Hne].
    + intros [= _ H]. by apply split_not_nil in H.
    + destruct (split sep s) as [|p ps] eqn:Hs; [by apply split_not_nil in Hs|].
      intros [= <- ->]. destruct (IH p eq_refl) as [-> Hno]. split; [done|].
      intros [?|?]; [done|tauto].
Qed.

Lemma endswith_occurs c s suffix :
  endswith s (String c suffix) = true -> occurs c s.
Proof.
  induction s as [|a s IH]; simpl.
  - done.
  - destruct (Ascii.eqb_spec a c) as [->|Hne]; [by left|].
    simpl. intros H. right. apply IH.
    destruct (String.eqb s suffix); simpl in H; [|done].
    destruct (String.eqb_spec (String a s) (String c suffix)); [congruence|done].
Qed.

Lemma endswith_camera_component s : forall t c,
  split "_" s = [t; c] -> endswith s "_0" = String.eqb c "0".
Proof.
  induction s as [|a s IH]; intros t c; simpl; [done|].
  destruct (Ascii.eqb_spec a "_") as [->|Hne].
  - intros [= <- Hs]. apply split_singleton in Hs as [-> Hno].
    simpl. destruct (String.eqb s "0") eqn:E; [done|].
    destruct (endswith s "_0") eqn:E'; [|done].
    by apply endswith_occurs in E'.
  - destruct (split "_" s) as [|p ps] eqn:Hs; [done|].
    intros [= <- ->]. rewrite (IH p c eq_refl).
    destruct (Ascii.eqb_spec a "_"); [done|]. done.
Qed.

(** ** File names *)

Lemma endswith_app s suffix :
  endswith s suffix = true <-> exists p, s = p ++ suffix.
Proof.
  split.
  - induction s as [|a s IH]; cbn [endswith].
    + destruct (String.eqb_spec "" suffix) as [<-|]; [|done]. by exists "".
    + destruct (String.eqb_spec (String a s) suffix) as [<-|]; [by exists ""|].
      intros [p ->]%IH. by exists (String a p).
  - intros [p ->]. induction p as [|a p IH]; simpl.
    + pose proof (String.eqb_refl suffix) as H.
      destruct suffix; simpl in *; [done|]. by rewrite H.
    + rewrite IH. by repeat case_match.
Qed.

Lemma substring_prefix p q : String.substring 0 (String.length p) (p ++ q) = p.
Proof.
  induction p as [|a p IH]; simpl; [by destruct q|]. by rewrite IH.
Qed.

Lemma length_append p q :
  String.length (p ++ q) = (String.length p + String.length q)%nat.
Proof. induction p as [|a p IH]; simpl; [done|]. by rewrite IH. Qed.

Lemma drop_last4_txt key : drop_last4 (key ++ ".txt") = key.
Proof.
  unfold drop_last4. rewrite length_append. simpl.
  replace (String.length key + 4 - 4)%nat with (String.length key) by lia.
  apply substring_prefix.
Qed.

Lemma endswith_txt f : endswith f ".txt" = true -> f = drop_last4 f ++ ".txt".
Proof. intros [p ->]%endswith_app. by rewrite drop_last4_txt. Qed.

Lemma txt_files_spec names f :
  f ∈ txt_files names <-> f ∈ names /\ endswith f ".txt" = true.
Proof.
  unfold txt_files. rewrite !list_elem_of_In, filter_In. done.
Qed.


(** ** The monad *)

Section MonadFacts.
Context {F : Type}.
Implicit Types st : world F.

Lemma fs_equiv_refl st : fs_equiv st st.
Proof. by split. Qed.

Lemma fs_equiv_sym st st' : fs_equiv st st' -> fs_equiv st' st.
Proof. unfold fs_equiv. by intros [-> ->]. Qed.

Lemma fs_equiv_trans st1 st2 st3 :
  fs_equiv st1 st2 -> fs_equiv st2 st3 -> fs_equiv st1 st3.
Proof. unfold fs_equiv. by intros [-> ->] [-> ->]. Qed.

Lemma respectful_ret {A} (a : A) : respectful (ret a : M F A).
Proof. by intros st st' H. Qed.

Lemma read_only_ret {A} (a : A) : read_only (ret a : M F A).
Proof. intros st. apply fs_equiv_refl. Qed.

Lemma respectful_raise {A} e : respectful (raise e : M F A).
Proof. by intros st st' H. Qed.

Lemma read_only_raise {A} e : read_only (raise e : M F A).
Proof. intros st. apply fs_equiv_refl. Qed.

Lemma respectful_emit (e : event F) : respectful (emit e).
Proof. intros st st' [H1 H2]. by repeat split. Qed.

Lemma read_only_emit (e : event F) : read_only (emit e).
Proof. by intros st. Qed.

Lemma respectful_bind {A B} (m : M F A) (k : A -> M F B) :
  respectful m -> (forall a, respectful (k a)) -> respectful (bind m k).
Proof.
  intros Hm Hk st st' H. unfold bind.
  destruct (Hm st st' H) as [H1 H2].
  destruct (m st) as [[e|a] st1], (m st') as [[e'|a'] st1']; simpl in *;
    simplify_eq; [done|]. by apply Hk.
Qed.

Lemma read_only_bind {A B} (m : M F A) (k : A -> M F B) :
  read_only m -> (forall a, read_only (k a)) -> read_only (bind m k).
Proof.
  intros Hm Hk st. unfold bind. specialize (Hm st).
  destruct (m st) as [[e|a] st1]; simpl in *; [done|].
  eapply fs_equiv_trans; [apply Hk|done].
Qed.

Lemma respectful_for_each {A S} (xs : list A) (body : A -> S -> M F S) s :
  (forall x s, respectful (body x s)) -> respectful (for_each xs body s).
Proof.
  intros Hb. revert s. induction xs as [|x xs IH]; intros s; simpl.
  - apply respectful_ret.
  - apply respectful_bind; [apply Hb|apply IH].
Qed.

Lemma read_only_for_each {A S} (xs : list A) (body : A -> S -> M F S) s :
  (forall x s, read_only (body x s)) -> read_only (for_each xs body s).
Proof.
  intros Hb. revert s. induction xs as [|x xs IH]; intros s; simpl.
  - apply read_only_ret.
  - apply read_only_bind; [apply Hb|apply IH].
Qed.

Lemma respectful_os_listdir path : respectful (os_listdir (F:=F) path).
Proof.
  apply respectful_bind; [apply respectful_emit|]. intros _ st st' [H1 H2].
  rewrite H1. by destruct (fs_dirs st' !! path).
Qed.

Lemma read_only_os_listdir path : read_only (os_listdir (F:=F) path).
Proof.
  apply read_only_bind; [apply read_only_emit|]. intros _ st.
  by destruct (fs_dirs st !! path).
Qed.

Lemma respectful_os_path_exists path : respectful (os_path_exists (F:=F) path).
Proof.
  apply respectful_bind; [apply respectful_emit|]. intros _ st st' [H1 H2].
  simpl. by rewrite H1, H2.
Qed.

Lemma read_only_os_path_exists path : read_only (os_path_exists (F:=F) path).
Proof. apply read_only_bind; [apply read_only_emit|]. by intros _ st. Qed.

Lemma respectful_np_loadtxt path : respectful (np_loadtxt (F:=F) path).
Proof.
  apply respectful_bind; [apply respectful_emit|]. intros _ st st' [H1 H2].
  rewrite H2. by destruct (fs_files st' !! path) as [[]|].
Qed.

Lemma read_only_np_loadtxt path : read_only (np_loadtxt (F:=F) path).
Proof.
  apply read_only_bind; [apply read_only_emit|]. intros _ st.
  by destruct (fs_files st !! path) as [[]|].
Qed.

Lemma respectful_json_load path : respectful (json_load (F:=F) path).
Proof.
  apply respectful_bind; [apply respectful_emit|]. intros _ st st' [H1 H2].
  rewrite H2. by destruct (fs_files st' !! path) as [[]|].
Qed.

Lemma read_only_json_load path : read_only (json_load (F:=F) path).
Proof.
  apply read_only_bind; [apply read_only_emit|]. intros _ st.
  by destruct (fs_files st !! path) as [[]|].
Qed.

Lemma respectful_json_dump (doc : transforms F) path : respectful (json_dump doc path).
Proof.
  intros st st' [H1 H2]. unfold json_dump. rewrite H1, H2.
  by destruct (fs_dirs st' !! path).
Qed.

(** A read-only block run later in the script returns what it returns
    on the initial world. *)
Lemma run_block {A} (m : M F A) st st' :
  respectful m -> read_only m -> fs_equiv st' st ->
  (m st').1 = (m st).1 /\ fs_equiv (m st').2 st.
Proof.
  intros Hr Ho H. split; [by apply Hr|].
  eapply fs_equiv_trans; [apply Ho|done].
Qed.
End MonadFacts.

(** ** Traces *)

Section Traces.
Context {F : Type}.
Implicit Types st : world F.
Implicit Types P : event F -> Prop.

Lemma emits_ret {A} P (a : A) : emits P (ret a : M F A).
Proof. intros st. exists []. by rewrite app_nil_r. Qed.

Lemma emits_raise {A} P e : emits P (raise e : M F A).
Proof. intros st. exists []. by rewrite app_nil_r. Qed.

Lemma emits_emit P (e : event F) : P e -> emits P (emit e).
Proof. intros He st. exists [e]. split; [done|]. by constructor. Qed.

Lemma emits_bind {A B} P (m : M F A) (k : A -> M F B) :
  emits P m -> (forall a, emits P (k a)) -> emits P (bind m k).
Proof.
  intros Hm Hk st. unfold bind. destruct (Hm st) as (evs & Ht & Hevs).
  destruct (m st) as [[e|a] st1]; cbn [fst snd] in *; [by exists evs|].
  destruct (Hk a st1) as (evs' & Ht' & Hevs'). exists (evs ++ evs')%list.
  split; [by rewrite Ht', Ht, app_assoc|by apply Forall_app].
Qed.

Lemma emits_for_each {A S} P (xs : list A) (body : A -> S -> M F S) s :
  (forall x s, emits P (body x s)) -> emits P (for_each xs body s).
Proof.
  intros Hb. revert s. induction xs as [|x xs IH]; intros s; simpl.
  - apply emits_ret.
  - apply emits_bind; [apply Hb|apply IH].
Qed.


Lemma emits_os_path_exists P path :
  P (PathExists path) -> emits P (os_path_exists path).
Proof.
  intros HP. apply emits_bind; [by apply emits_emit|]. intros _ st.
  exists []. by rewrite app_nil_r.
Qed.


Lemma emits_json_dump P (doc : transforms F) path :
  P (JsonDump path doc) -> emits P (json_dump doc path).
Proof.
  intros HP st. unfold json_dump. destruct (fs_dirs st !! path).
  - exists []. by rewrite app_nil_r.
  - exists [JsonDump path doc]. split; [done|]. by constructor.
Qed.

Lemma emits_elem_of {A} P (m : M F A) st ev :
  emits P m -> ev ∈ trace st -> ev ∈ trace (m st).2.
Proof.
  intros Hm Hev. destruct (Hm st) as (evs & -> & _).
  apply elem_of_app. by left.
Qed.

End Traces.

(** ** Effects of the blocks of the nuScenes converter *)

Ltac effects :=
  unfold logger, print;
  repeat first
    [ apply respectful_ret | apply read_only_ret
    | apply respectful_raise | apply read_only_raise
    | apply respectful_emit | apply read_only_emit
    | apply respectful_os_listdir | apply read_only_os_listdir
    | apply respectful_os_path_exists | apply read_only_os_path_exists
    | apply respectful_np_loadtxt | apply read_only_np_loadtxt
    | apply respectful_json_load | apply read_only_json_load
    | apply respectful_json_dump
    | apply respectful_for_each | apply read_only_for_each
    | apply respectful_bind | apply read_only_bind
    | progress intros
    | case_match ].

Section NuscenesBlocks.
Context {F : Type}.
Variable matmul : ndarray F -> ndarray F -> ndarray F.
Variable inv : ndarray F -> option (ndarray F).
Implicit Types st : world F.

Lemma respectful_load_extrinsics_file dir f s :
  respectful (load_extrinsics_file (F:=F) dir f s).
Proof. unfold load_extrinsics_file. effects. Qed.

Lemma read_only_load_extrinsics_file dir f s :
  read_only (load_extrinsics_file (F:=F) dir f s).
Proof. unfold load_extrinsics_file. effects. Qed.

Lemma respectful_load_extrinsics dir :
  respectful (load_extrinsics_from_directory (F:=F) dir).
Proof.
  unfold load_extrinsics_from_directory. effects.
  all: try apply respectful_load_extrinsics_file.
Qed.

Lemma read_only_load_extrinsics dir :
  read_only (load_extrinsics_from_directory (F:=F) dir).
Proof.
  unfold load_extrinsics_from_directory. effects.
  all: try apply read_only_load_extrinsics_file.
Qed.

Lemma respectful_load_intrinsics p c w h :
  respectful (load_intrinsics (F:=F) p c w h).
Proof. unfold load_intrinsics. effects. Qed.

Lemma read_only_load_intrinsics p c w h :
  read_only (load_intrinsics (F:=F) p c w h).
Proof. unfold load_intrinsics. effects. Qed.

Lemma respectful_load_all_intrinsics p w h ids :
  respectful (load_all_intrinsics (F:=F) p w h ids).
Proof.
  unfold load_all_intrinsics. effects.
Qed.

Lemma read_only_load_all_intrinsics p w h ids :
  read_only (load_all_intrinsics (F:=F) p w h ids).
Proof.
  unfold load_all_intrinsics. effects.
Qed.

Lemma respectful_load_camera_front_start p ex :
  respectful (load_camera_front_start (F:=F) p ex).
Proof. unfold load_camera_front_start. effects. Qed.

Lemma read_only_load_camera_front_start p ex :
  read_only (load_camera_front_start (F:=F) p ex).
Proof. unfold load_camera_front_start. effects. Qed.

Lemma respectful_log_summary mc ids (all : gmap string (option (intrinsics F))) :
  respectful (log_summary mc ids all).
Proof. unfold log_summary. effects. Qed.

Lemma read_only_log_summary mc ids (all : gmap string (option (intrinsics F))) :
  read_only (log_summary mc ids all).
Proof. unfold log_summary. effects. Qed.

(** The loop body touches neither the files nor the trace. *)
Lemma process_frame_world ex all cfs idir ext mc k frames st :
  (process_frame matmul inv ex all cfs idir ext mc k frames st).2 = st.
Proof.
  unfold process_frame, mbind, M_bind, bind, ret, raise.
  repeat (case_match; simplify_eq/=; try done).
Qed.

Lemma process_frame_outcome ex all cfs idir ext mc k frames st frames2 st2 :
  match (process_frame matmul inv ex all cfs idir ext mc k frames st).1 with
  | Raised e =>
      (process_frame matmul inv ex all cfs idir ext mc k frames2 st2).1 = Raised e
  | Returned frames' =>
      exists fr : frame F, frames' = (frames ++ [fr])%list /\
        (process_frame matmul inv ex all cfs idir ext mc k frames2 st2).1
          = Returned (frames2 ++ [fr])%list
  end.
Proof.
  unfold process_frame, mbind, M_bind, bind, ret, raise.
  repeat (case_match; simplify_eq/=; try done); eauto.
Qed.
End NuscenesBlocks.

(** ** The extrinsics loader *)

Section Loader.
Context {F : Type}.
Implicit Types st : world F.

Lemma read_extrinsics_equiv st st' dir f :
  fs_equiv st st' -> read_extrinsics st dir f = read_extrinsics st' dir f.
Proof. intros [_ H]. unfold read_extrinsics. by rewrite H. Qed.

Lemma extrinsics_of_equiv st st' dir files ex :
  fs_equiv st st' -> extrinsics_of st dir files ex = extrinsics_of st' dir files ex.
Proof.
  intros H. unfold extrinsics_of. revert ex.
  induction files as [|f files IH]; intros ex; simpl; [done|].
  by rewrite IH, (read_extrinsics_equiv st st').
Qed.

Lemma read_extrinsics_shape st dir f a :
  read_extrinsics st dir f = Returned a ->
  fs_files st !! os_path_join dir f = Some (NumericText a) /\ shape a = [4; 4].
Proof.
  unfold read_extrinsics. repeat case_match; try done.
  intros [= ->]. split; [done|]. by eapply bool_decide_eq_true_1.
Qed.

Lemma load_extrinsics_file_outcome dir f ex v st :
  (load_extrinsics_file dir f (ex, v) st).1 =
    match read_extrinsics st dir f with
    | Returned a => Returned (<[drop_last4 f := a]> ex, S v)
    | Raised e => Raised e
    end.
Proof.
  unfold load_extrinsics_file, read_extrinsics, np_loadtxt, logger, emit,
    mbind, M_bind, bind, ret, raise. simpl.
  repeat (case_match; simplify_eq/=; try done).
Qed.

Lemma load_extrinsics_loop dir files : forall ex v st st0,
  fs_equiv st st0 ->
  match (for_each files (load_extrinsics_file dir) (ex, v) st).1 with
  | Raised e =>
      exists pre f post, files = (pre ++ f :: post)%list /\
        Forall (fun f => exists a, read_extrinsics st0 dir f = Returned a) pre /\
        read_extrinsics st0 dir f = Raised e
  | Returned (ex', v') =>
      Forall (fun f => exists a, read_extrinsics st0 dir f = Returned a) files /\
      v' = (v + length files)%nat /\
      ex' = extrinsics_of st0 dir files ex
  end.
Proof.
  induction files as [|f files IH]; intros ex v st st0 Hst.
  { simpl. split; [constructor|]. split; [lia|done]. }
  cbn [for_each]. unfold bind.
  pose proof (load_extrinsics_file_outcome dir f ex v st) as Hf.
  pose proof (read_only_load_extrinsics_file dir f (ex, v) st) as Hro.
  rewrite (read_extrinsics_equiv st st0) in Hf by done.
  destruct (load_extrinsics_file dir f (ex, v) st) as [[e|[ex1 v1]] st1];
    cbn [fst snd] in *.
  - exists [], f, files. split; [done|]. split; [constructor|].
    destruct (read_extrinsics st0 dir f); congruence.
  - destruct (read_extrinsics st0 dir f) as [|a] eqn:Ha; [done|].
    simplify_eq. specialize (IH (<[drop_last4 f:=a]> ex) (S v) st1 st0).
    destruct (for_each _ _ _ st1) as [[e|[ex' v']] st']; cbn [fst snd] in *.
    + destruct IH as (pre & f' & post & -> & Hpre & Hf').
      { by eapply fs_equiv_trans. }
      exists (f :: pre), f', post. split; [done|]. split; [|done].
      constructor; eauto.
    + destruct IH as (Hall & -> & ->); [by eapply fs_equiv_trans|].
      split; [constructor; eauto|]. split; [simpl; lia|].
      unfold extrinsics_of. simpl. by rewrite Ha.
Qed.

(** What [load_extrinsics_from_directory] returns, read off the files. *)
Lemma load_extrinsics_outcome dir st :
  match (load_extrinsics_from_directory dir st).1 with
  | Raised e =>
      (fs_dirs st !! dir = None /\ e = OSError dir) \/
      exists names pre f post,
        fs_dirs st !! dir = Some names /\
        txt_files names = (pre ++ f :: post)%list /\
        Forall (fun f => exists a, read_extrinsics st dir f = Returned a) pre /\
        read_extrinsics st dir f = Raised e
  | Returned ex =>
      exists names,
        fs_dirs st !! dir = Some names /\
        Forall (fun f => exists a, read_extrinsics st dir f = Returned a)
               (txt_files names) /\
        ex = extrinsics_of st dir (txt_files names) ∅
  end.
Proof.
  unfold load_extrinsics_from_directory, os_listdir, logger, emit,
    mbind, M_bind, bind, ret. cbn [fst snd fs_dirs fs_files trace].
  destruct (fs_dirs st !! dir) as [names|] eqn:Hd; cbn [fst snd]; [|by left].
  fold (txt_files names).
  remember (txt_files names) as files eqn:Hfiles.
  destruct files as [|f files'].
  { exists names. rewrite <- Hfiles. split; [done|]. split; [constructor|done]. }
  set (st1 := World _ _ _).
  pose proof (load_extrinsics_loop dir (f :: files') ∅ 0 st1 st) as H.
  destruct (for_each _ _ _ st1) as [[e|[ex v]] st2]; cbn [fst snd] in *.
  - right. destruct H as (pre & f' & post & ? & ? & ?); [done|].
    exists names, pre, f', post. by rewrite <- Hfiles.
  - destruct H as (? & ? & ?); [done|]. exists names. by rewrite <- Hfiles.
Qed.
End Loader.

Section LoaderFacts.
Context {F : Type}.
Implicit Types st : world F.

Lemma extrinsics_of_lookup st dir files :
  Forall (fun f => endswith f ".txt" = true) files ->
  Forall (fun f => exists a, read_extrinsics st dir f = Returned a) files ->
  forall ex k a,
    extrinsics_of st dir files ex !! k = Some a <->
    (exists f, f ∈ files /\ drop_last4 f = k /\ read_extrinsics st dir f = Returned a)
    \/ (ex !! k = Some a /\ forall f, f ∈ files -> drop_last4 f <> k).
Proof.
  induction files as [|f0 files IH]; intros Htxt Hok ex k a.
  { unfold extrinsics_of; simpl. split; [intros; right; split; [done|]|].
    - by intros f ?%elem_of_nil.
    - intros [(f & ?%elem_of_nil & _)|[? _]]; done. }
  inversion Htxt as [|? ? Htxt0 Htxt']; subst.
  inversion Hok as [|? ? [a0 Ha0] Hok']; subst.
  unfold extrinsics_of in *. cbn [foldl]. rewrite Ha0.
  rewrite (IH Htxt' Hok'). split.
  - intros [(f & Hf & Hk & Hr)|[Hl Hno]].
    + left. exists f. split; [by right|done].
    + destruct (decide (drop_last4 f0 = k)) as [<-|Hne].
      * rewrite lookup_insert_eq in Hl. simplify_eq. left. exists f0.
        split; [by left|done].
      * rewrite lookup_insert_ne in Hl by done. right. split; [done|].
        intros f [->|Hf]%elem_of_cons; eauto.
  - intros [(f & [->|Hf]%elem_of_cons & Hk & Hr)|[Hl Hno]].
    + destruct (decide (Exists (fun f' => drop_last4 f' = k) files)) as [Hex|Hnex].
      * apply Exists_exists in Hex as (f' & Hf' & Hk'). left. exists f'.
        split; [done|]. split; [done|].
        assert (f' = f0) as ->; [|done].
        rewrite Forall_forall in Htxt'.
        rewrite (endswith_txt f' (Htxt' _ Hf')), (endswith_txt f0 Htxt0).
        by rewrite Hk, Hk'.
      * right. subst k. rewrite lookup_insert_eq. split; [congruence|].
        intros f' Hf' Hk'. apply Hnex, Exists_exists. eauto.
    + left. eauto.
    + right. rewrite lookup_insert_ne by (apply Hno; by left). split; [done|].
      intros f' Hf'. apply Hno. by right.
Qed.

(** The dictionary the loader returns holds, under the key [k], the
    4x4 array of the listed file [k.txt]. *)
Lemma load_extrinsics_lookup dir st ex :
  (load_extrinsics_from_directory dir st).1 = Returned ex ->
  exists names,
    fs_dirs st !! dir = Some names /\
    forall k a,
      ex !! k = Some a <->
      (k ++ ".txt") ∈ names /\ read_extrinsics st dir (k ++ ".txt") = Returned a.
Proof.
  intros Hload. pose proof (load_extrinsics_outcome dir st) as H.
  rewrite Hload in H. destruct H as (names & Hd & Hok & ->).
  exists names. split; [done|]. intros k a.
  rewrite extrinsics_of_lookup; [|by apply Forall_forall; intros f [_ ?]%txt_files_spec|done].
  split.
  - intros [(f & [Hf Htxt]%txt_files_spec & <- & Hr)|[? _]]; [|done].
    by rewrite <- (endswith_txt f Htxt).
  - intros [Hf Hr]. left. exists (k ++ ".txt"). split; [|by rewrite drop_last4_txt].
    apply txt_files_spec. split; [done|]. apply endswith_app. eauto.
Qed.

End LoaderFacts.

(** ** Intrinsics, reference pose, frames and summary *)

Section Blocks.
Context {F : Type}.
Variable matmul : ndarray F -> ndarray F -> ndarray F.
Variable inv : ndarray F -> option (ndarray F).
Implicit Types st : world F.

(** *** load_intrinsics *)

Lemma load_intrinsics_missing p c w h st :
  let intrinsics_file := os_path_join p (c ++ ".txt") in
  fs_dirs st !! intrinsics_file = None ->
  fs_files st !! intrinsics_file = None ->
  load_intrinsics p c w h st =
    (Returned None,
     World (fs_dirs st) (fs_files st)
       (trace st ++ [PathExists intrinsics_file;
                     Log ERROR (Intrinsics_file_not_found intrinsics_file)])).
Proof.
  intros file Hd Hf.
  unfold load_intrinsics, os_path_exists, logger, emit, mbind, M_bind, bind, ret.
  cbn [fst snd fs_dirs fs_files trace]. fold file.
  rewrite bool_decide_eq_false_2.
  - cbn. by rewrite <- app_assoc.
  - rewrite Hd, Hf. intros [[? [=]]|[? [=]]].
Qed.

Lemma load_intrinsics_outcome p c w h st :
  let intrinsics_file := os_path_join p (c ++ ".txt") in
  match (load_intrinsics p c w h st).1 with
  | Returned None =>
      fs_dirs st !! intrinsics_file = None /\ fs_files st !! intrinsics_file = None
  | Returned (Some i) =>
      exists n fx fy cx cy rest,
        fs_files st !! intrinsics_file
          = Some (NumericText (NdArray [n] (fx :: fy :: cx :: cy :: rest))) /\
        4 <= n /\ i = Intrinsics fx fy cx cy w h
  | Raised _ => True
  end.
Proof.
  intros file.
  unfold load_intrinsics, os_path_exists, np_loadtxt, logger, emit,
    mbind, M_bind, bind, ret, raise.
  cbn [fst snd fs_dirs fs_files trace]. fold file.
  case_bool_decide as Hex; cbn [negb fst snd].
  - destruct (fs_files st !! file) as [[[sh d]| | |]|] eqn:Hf;
      cbn; rewrite ?Hf; cbn; try done.
    destruct sh as [|n rest]; cbn; [done|].
    destruct n as [|[|[|[|n]]]]; cbn; try done.
    destruct rest; cbn; [|done].
    destruct d as [|fx [|fy [|cx [|cy d]]]]; cbn; try done.
    exists (S (S (S (S n)))), fx, fy, cx, cy, d.
    split; [done|]. split; [lia|done].
  - split.
    + destruct (fs_dirs st !! file) eqn:E; [|done]. destruct Hex. left. eauto.
    + destruct (fs_files st !! file) eqn:E; [|done]. destruct Hex. right. eauto.
Qed.

(** *** The loop over the camera ids *)

Lemma load_camera_intrinsics_outcome p w h c
    (all : gmap string (option (intrinsics F))) st st0 :
  fs_equiv st st0 ->
  (load_camera_intrinsics p w h c all st).1 =
    match (load_intrinsics p c w h st0).1 with
    | Returned oi => Returned (<[c := oi]> all)
    | Raised e => Raised e
    end.
Proof.
  intros Hst. unfold load_camera_intrinsics, logger, emit, mbind, M_bind.
  unfold bind at 1. cbn [fst snd fs_dirs fs_files trace]. unfold bind.
  set (st1 := World _ _ _).
  assert (fs_equiv st1 st0) as Hst1 by (by destruct Hst).
  destruct (respectful_load_intrinsics p c w h st1 st0 Hst1) as [<- _].
  by destruct (load_intrinsics p c w h st1) as [[e|oi] st2].
Qed.

Lemma read_only_load_camera_intrinsics p w h c
    (all : gmap string (option (intrinsics F))) :
  read_only (load_camera_intrinsics p w h c all).
Proof. unfold load_camera_intrinsics. effects. Qed.

Lemma load_all_intrinsics_loop p w h (ids : list string) :
  forall (all : gmap string (option (intrinsics F))) st st0,
  fs_equiv st st0 ->
  match (for_each ids (load_camera_intrinsics p w h) all st).1 with
  | Raised e =>
      exists c, c ∈ ids /\ (load_intrinsics p c w h st0).1 = Raised e
  | Returned all' =>
      (forall c, c ∈ ids ->
         exists oi, all' !! c = Some oi /\
                    (load_intrinsics p c w h st0).1 = Returned oi) /\
      (forall c, c ∉ ids -> all' !! c = all !! c)
  end.
Proof.
  induction ids as [|c0 ids IH]; intros all st st0 Hst.
  { cbn. split; [by intros c ?%elem_of_nil|done]. }
  cbn [for_each]. unfold bind.
  pose proof (load_camera_intrinsics_outcome p w h c0 all st st0 Hst) as Ho.
  pose proof (read_only_load_camera_intrinsics p w h c0 all st) as Hro.
  destruct (load_camera_intrinsics p w h c0 all st) as [[e|all1] st1];
    cbn [fst snd] in *.
  { exists c0. split; [by left|]. destruct (load_intrinsics _ _ _ _ st0).1; congruence. }
  destruct (load_intrinsics p c0 w h st0).1 as [|oi] eqn:Hoi; [done|].
  simplify_eq.
  specialize (IH (<[c0:=oi]> all) st1 st0 (fs_equiv_trans _ _ _ Hro Hst)).
  destruct (for_each _ _ _ st1) as [[e|all'] st3]; cbn [fst snd] in *.
  - destruct IH as (c & ? & ?). exists c. split; [by right|done].
  - destruct IH as [IH1 IH2]. split.
    + intros c [->|Hc]%elem_of_cons; [|by apply IH1].
      destruct (decide (c0 ∈ ids)) as [Hin|Hnin]; [by apply IH1|].
      exists oi. by rewrite (IH2 _ Hnin), lookup_insert_eq.
    + intros c [Hne Hnin]%not_elem_of_cons. rewrite (IH2 _ Hnin).
      by rewrite lookup_insert_ne.
Qed.

Lemma load_all_intrinsics_outcome p w h ids st :
  match (load_all_intrinsics p w h ids st).1 with
  | Raised e =>
      exists c, c ∈ ids /\ (load_intrinsics p c w h st).1 = Raised e
  | Returned all =>
      forall c, c ∈ ids ->
        exists oi, all !! c = Some oi /\ (load_intrinsics p c w h st).1 = Returned oi
  end.
Proof.
  unfold load_all_intrinsics.
  pose proof (load_all_intrinsics_loop p w h (sorted (elements ids)) ∅ st st
                (fs_equiv_refl st)) as H.
  destruct (for_each _ _ _ st) as [[e|all] st1]; cbn [fst snd] in *.
  - destruct H as (c & Hc & ?). exists c.
    by rewrite elem_of_sorted, elem_of_elements in Hc.
  - destruct H as [H _]. intros c Hc. apply H.
    by rewrite elem_of_sorted, elem_of_elements.
Qed.

(** *** The reference pose *)

Lemma load_camera_front_start_run p (ex : gmap string (ndarray F)) st :
  is_Some (fs_dirs st !! p) ->
  (load_camera_front_start p ex st).1 = Returned (reference_pose ex) /\
  (first_frame_candidates ex = [] ->
     Log WARNING No_front_camera_found ∈ trace (load_camera_front_start p ex st).2).
Proof.
  intros Hd.
  unfold load_camera_front_start, reference_pose, os_path_exists, logger, emit,
    mbind, M_bind, bind, ret.
  cbn [fst snd fs_dirs fs_files trace].
  rewrite bool_decide_eq_true_2 by (by left).
  destruct (first_frame_candidates ex) as [|k ks]; cbn.
  - split; [done|]. intros _. apply elem_of_app. right. by left.
  - split; [|done]. by destruct (ex !! k).
Qed.

(** *** The loop over the frames *)

Lemma process_frames_loop (ex : gmap string (ndarray F)) all cfs idir ext mc ks :
  forall frames st,
  let r := for_each ks (process_frame matmul inv ex all cfs idir ext mc) frames st in
  r.2 = st /\
  match r.1 with
  | Raised e =>
      exists k, k ∈ ks /\
        (process_frame matmul inv ex all cfs idir ext mc k [] st).1 = Raised e
  | Returned frames' =>
      exists new, frames' = (frames ++ new)%list /\
        Forall2 (fun k fr =>
                   (process_frame matmul inv ex all cfs idir ext mc k [] st).1
                     = Returned [fr]) ks new
  end.
Proof.
  induction ks as [|k ks IH]; intros frames st.
  { cbn. split; [done|]. exists []. by rewrite app_nil_r. }
  cbn [for_each]. unfold bind.
  pose proof (process_frame_world matmul inv ex all cfs idir ext mc k frames st) as Hw.
  pose proof (process_frame_outcome matmul inv ex all cfs idir ext mc k frames st [] st)
    as Ho.
  destruct (process_frame _ _ _ _ _ _ _ _ k frames st) as [[e|frames1] st1];
    cbn [fst snd] in *; subst st1.
  { split; [done|]. exists k. split; [by left|done]. }
  destruct Ho as (fr & -> & Hfr). specialize (IH (frames ++ [fr])%list st).
  cbn zeta in IH. destruct IH as [IHw IH]. split; [done|].
  destruct (for_each _ _ _ st) as [[e|frames'] st']; cbn [fst snd] in *.
  - destruct IH as (k' & ? & ?). exists k'. split; [by right|done].
  - destruct IH as (new & -> & Hnew). exists (fr :: new).
    split; [by rewrite <- app_assoc|]. by constructor.
Qed.

(** What one successful turn of the loop appends, in multi-camera mode. *)
Lemma process_frame_returned (ex : gmap string (ndarray F)) all cfs idir ext k fr st :
  (process_frame matmul inv ex all cfs idir ext true k [] st).1 = Returned [fr] ->
  exists raw t c i,
    ex !! k = Some raw /\ split "_" k = [t; c] /\ all !! c = Some (Some i) /\
    file_path fr = image_path_of idir k ext /\
    per_frame fr = Some (FrameIntrinsics (i_fx i) (i_fy i) (i_cx i) (i_cy i)
                           (i_width i) (i_height i)) /\
    match cfs with
    | Some c => exists c_inv, inv c = Some c_inv /\
                              transform_matrix fr = tolist (matmul c_inv raw)
    | None => transform_matrix fr = tolist raw
    end.
Proof.
  unfold process_frame, mbind, M_bind, bind, ret, raise.
  destruct (ex !! k) as [raw|]; cbn [fst snd]; [|done].
  destruct cfs as [c|].
  - destruct (inv c) as [c_inv|] eqn:Hinv; cbn [fst snd]; [|done].
    destruct (split "_" k) as [|t [|c' [|? ?]]]; cbn [fst snd]; try done.
    destruct (all !! c') as [[i|]|] eqn:Hall; cbn [fst snd]; try done.
    intros [= <-]. exists raw, t, c', i. cbn. repeat split; eauto.
  - destruct (split "_" k) as [|t [|c' [|? ?]]]; cbn [fst snd]; try done.
    destruct (all !! c') as [[i|]|] eqn:Hall; cbn [fst snd]; try done.
    intros [= <-]. exists raw, t, c', i. cbn. repeat split; eauto.
Qed.

(** *** The summary *)

Lemma elem_of_keys (ex : gmap string (ndarray F)) k :
  k ∈ keys ex <-> is_Some (ex !! k).
Proof.
  unfold keys. rewrite list_elem_of_fmap. split.
  - intros ([k' a] & -> & H%elem_of_map_to_list). eauto.
  - intros [a H]. exists (k, a). split; [done|]. by apply elem_of_map_to_list.
Qed.

Lemma elem_of_detect_camera_ids (ex : gmap string (ndarray F)) c :
  c ∈ detect_camera_ids ex <->
  exists k, k ∈ keys ex /\ camera_component k = Some c.
Proof.
  unfold detect_camera_ids.
  assert (forall (ks : list string) (ids : gset string),
    c ∈ foldl (fun camera_ids camera_name =>
                 match split "_" camera_name with
                 | [_; cam_id] => camera_ids ∪ {[cam_id]}
                 | _ => camera_ids
                 end) ids ks <->
    c ∈ ids \/ exists k, k ∈ ks /\ camera_component k = Some c) as H.
  { induction ks as [|k ks IH]; intros ids; cbn [foldl].
    - split; [by left|]. intros [?|(k & ?%elem_of_nil & _)]; done.
    - rewrite IH. unfold camera_component at 2.
      split.
      + intros [Hc|(k' & ? & ?)]; [|right; exists k'; split; [by right|done]].
        destruct (split "_" k) as [|t [|c' [|? ?]]] eqn:Hs; try by left.
        apply elem_of_union in Hc as [?|Hc]; [by left|].
        apply elem_of_singleton in Hc as ->.
        right. exists k. split; [by left|]. unfold camera_component. by rewrite Hs.
      + intros [Hc|(k' & [->|?]%elem_of_cons & Hk')].
        * left. destruct (split "_" k) as [|t [|c' [|? ?]]]; try done.
          apply elem_of_union. by left.
        * left. unfold camera_component in Hk'.
          destruct (split "_" k) as [|t [|c' [|? ?]]]; try done.
          simplify_eq. apply elem_of_union. right. by apply elem_of_singleton.
        * right. eauto. }
  rewrite H. split; [|by right]. intros [?%not_elem_of_empty|?]; done.
Qed.

Lemma log_summary_returns (ids : gset string)
    (all : gmap string (option (intrinsics F))) st :
  (forall c, c ∈ ids -> exists i, all !! c = Some (Some i)) ->
  (log_summary true ids all st).1 = Returned tt.
Proof.
  intros Hall. unfold log_summary, logger, emit, mbind, M_bind, bind at 1.
  cbn [fst snd]. set (st1 := World _ _ _). clearbody st1. clear st.
  assert (forall c, c ∈ sorted (elements ids) -> exists i, all !! c = Some (Some i))
    as Hl.
  { intros c Hc. apply Hall. by rewrite elem_of_sorted, elem_of_elements in Hc. }
  revert st1. induction (sorted (elements ids)) as [|c cs IH]; intros st1; [done|].
  cbn [for_each]. unfold bind.
  destruct (Hl c) as [i ->]; [by left|]. cbn [fst snd].
  apply IH. intros c' ?. apply Hl. by right.
Qed.
End Blocks.

(** ** The run of the nuScenes converter, block by block *)

Section Master.
Context {F : Type}.
Variable matmul : ndarray F -> ndarray F -> ndarray F.
Variable inv : ndarray F -> option (ndarray F).
Implicit Types st : world F.

Lemma bind_block {A B} (m : M F A) (k : A -> M F B) st st0 :
  respectful m -> read_only m -> fs_equiv st st0 ->
  bind m k st = match (m st0).1 with
                | Raised e => (Raised e, (m st).2)
                | Returned a => k a (m st).2
                end
  /\ fs_equiv (m st).2 st0.
Proof.
  intros Hr Ho Hst. split.
  - unfold bind. destruct (Hr st st0 Hst) as [<- _].
    by destruct (m st) as [[e|a] st1].
  - eapply fs_equiv_trans; [apply Ho|done].
Qed.

Lemma bind_assoc {A B C} (m : M F A) (k : A -> M F B) (k' : B -> M F C) st :
  bind (bind m k) k' st = bind m (fun a => bind (k a) k') st.
Proof. unfold bind. by destruct (m st) as [[e|a] st1]. Qed.

Lemma bind_ret {A B} (a : A) (k : A -> M F B) st : bind (ret a) k st = k a st.
Proof. done. Qed.

Lemma bind_json_dump {B} (doc : transforms F) path (k : unit -> M F B) st :
  bind (json_dump doc path) k st =
    match fs_dirs st !! path with
    | Some _ => (Raised (OSError path), st)
    | None => k tt (World (fs_dirs st)
                      (<[path := TransformsJson doc]> (fs_files st))
                      (trace st ++ [JsonDump path doc]))
    end.
Proof. unfold bind, json_dump. by destruct (fs_dirs st !! path). Qed.

Lemma bind_logger {B} lvl msg (k : unit -> M F B) st :
  bind (logger lvl msg) k st
  = k tt (World (fs_dirs st) (fs_files st) (trace st ++ [Log lvl msg])).
Proof. done. Qed.

Lemma respectful_process_frame (ex : gmap string (ndarray F)) all cfs idir ext mc k frames :
  respectful (process_frame matmul inv ex all cfs idir ext mc k frames).
Proof. unfold process_frame. effects. Qed.

Lemma read_only_process_frame (ex : gmap string (ndarray F)) all cfs idir ext mc k frames :
  read_only (process_frame matmul inv ex all cfs idir ext mc k frames).
Proof. unfold process_frame. effects. Qed.

Lemma log_summary_trace mc ids (all : gmap string (option (intrinsics F))) st ev :
  ev ∈ trace st -> ev ∈ trace (log_summary mc ids all st).2.
Proof.
  apply (emits_elem_of (fun _ => True)).
  unfold log_summary, logger. destruct mc; [|apply emits_raise].
  apply emits_bind; [by apply emits_emit|]. intros _.
  apply emits_for_each. intros c _.
  destruct (all !! c) as [[i|]|]; try apply emits_raise. by apply emits_emit.
Qed.

Lemma frames_intrinsics_loaded (ex : gmap string (ndarray F)) all cfs idir ext frames st :
  (for_each (sorted (keys ex)) (process_frame matmul inv ex all cfs idir ext true)
     [] st).1 = Returned frames ->
  forall c, c ∈ detect_camera_ids ex -> exists i, all !! c = Some (Some i).
Proof.
  intros Hloop c (k & Hk & Hc)%elem_of_detect_camera_ids.
  pose proof (process_frames_loop matmul inv ex all cfs idir ext true
                (sorted (keys ex)) [] st) as [_ H].
  rewrite Hloop in H. destruct H as (new & _ & Hnew).
  apply elem_of_sorted in Hk.
  apply list_elem_of_lookup in Hk as [n Hn].
  destruct (Forall2_lookup_l _ _ _ _ _ Hnew Hn) as (fr & _ & Hfr).
  apply process_frame_returned in Hfr as (raw & t & c' & i & _ & Hs & Hall & _).
  unfold camera_component in Hc. rewrite Hs in Hc. simplify_eq. eauto.
Qed.

Lemma convert_cases epath ipath out idir ext w h cid nerf mc st :
  let r := convert_nuscenes_to_transforms matmul inv epath ipath out idir ext
             w h cid nerf mc st in
  match (load_extrinsics_from_directory epath st).1 with
  | Raised e => r.1 = Raised e /\ fs_equiv r.2 st
  | Returned ex =>
      if bool_decide (ex = ∅) then r.1 = Returned false /\ fs_equiv r.2 st
      else if mc then
        match (load_all_intrinsics ipath w h (detect_camera_ids ex) st).1 with
        | Raised e => r.1 = Raised e /\ fs_equiv r.2 st
        | Returned all =>
            match (for_each (sorted (keys ex))
                     (process_frame matmul inv ex all (reference_pose ex)
                        idir ext mc) [] st).1 with
            | Raised e => r.1 = Raised e /\ fs_equiv r.2 st
            | Returned frames =>
                match fs_dirs st !! out with
                | Some _ => r.1 = Raised (OSError out) /\ fs_equiv r.2 st
                | None =>
                    r.1 = Returned true /\
                    fs_dirs r.2 = fs_dirs st /\
                    fs_files r.2
                      = <[out := TransformsJson (Transforms None frames)]> (fs_files st) /\
                    (first_frame_candidates ex = [] ->
                       Log WARNING No_front_camera_found ∈ trace r.2)
                end
            end
        end
      else r.1 = Raised (NotImplementedError single_camera_message)
           /\ fs_equiv r.2 st
  end.
Proof.
  intros r. subst r. unfold convert_nuscenes_to_transforms, mbind, M_bind.
  rewrite bind_logger. set (st1 := World _ _ _).
  assert (fs_equiv st1 st) as Hst1 by done.
  match goal with |- context [bind (load_extrinsics_from_directory epath) ?k ?s] =>
    destruct (bind_block (load_extrinsics_from_directory epath) k s st
                (respectful_load_extrinsics _) (read_only_load_extrinsics _) Hst1)
      as [-> Hst2]
  end.
  set (st2 := (load_extrinsics_from_directory epath st1).2) in *. clearbody st2.
  pose proof (load_extrinsics_outcome epath st) as Hload.
  destruct (load_extrinsics_from_directory epath st).1 as [e|ex] eqn:Hex; [done|].
  destruct Hload as (names & Hnames & _).
  case_bool_decide as Hempty; [done|].
  destruct mc; [|done].
  rewrite !bind_assoc, bind_logger. set (st3 := World _ _ _).
  rewrite !bind_assoc, bind_logger. set (st4 := World _ _ _).
  assert (fs_equiv st4 st) as Hst4 by (by destruct Hst2).
  rewrite !bind_assoc.
  match goal with |- context [bind (load_all_intrinsics ipath w h ?ids) ?k ?s] =>
    destruct (bind_block (load_all_intrinsics ipath w h ids) k s st
                (respectful_load_all_intrinsics _ _ _ _)
                (read_only_load_all_intrinsics _ _ _ _) Hst4)
      as [-> Hst5]
  end.
  set (st5 := (load_all_intrinsics ipath w h _ st4).2) in *. clearbody st5.
  destruct (load_all_intrinsics ipath w h (detect_camera_ids ex) st).1
    as [e|all] eqn:Hall; [done|].
  rewrite !bind_assoc, bind_logger. set (st6 := World _ _ _).
  assert (fs_equiv st6 st) as Hst6 by (by destruct Hst5).
  rewrite bind_ret.
  destruct (load_camera_front_start_run epath ex st6) as [Hcfs Hwarn].
  { destruct Hst6 as [-> _]. eauto. }
  match goal with |- context [bind (load_camera_front_start epath ex) ?k ?s] =>
    destruct (bind_block (load_camera_front_start epath ex) k s s
                (respectful_load_camera_front_start _ _)
                (read_only_load_camera_front_start _ _) (fs_equiv_refl _))
      as [-> Hst7]
  end.
  rewrite Hcfs.
  set (st7 := (load_camera_front_start epath ex st6).2) in *. clearbody st7.
  assert (fs_equiv st7 st) as Hst7' by (by eapply fs_equiv_trans).
  match goal with |- context [bind (for_each ?ks ?body ?s0) ?k ?s] =>
    destruct (bind_block (for_each ks body s0) k s st) as [-> Hst8];
      [apply respectful_for_each; intros; apply respectful_process_frame
      |apply read_only_for_each; intros; apply read_only_process_frame
      |done|]
  end.
  pose proof (process_frames_loop matmul inv ex all (reference_pose ex) idir ext true
                (sorted (keys ex)) [] st7) as [-> _].
  clear Hst8.
  destruct (for_each _ _ _ st).1 as [e|frames] eqn:Hframes; [done|].
  rewrite bind_logger.
  rewrite bind_json_dump. cbn [fs_dirs fs_files trace].
  destruct Hst7' as [Hd7 Hf7]. rewrite Hd7, Hf7.
  destruct (fs_dirs st !! out) as [?|] eqn:Hout; [by unfold fs_equiv; cbn|].
  rewrite bind_logger. set (st9 := World _ _ _).
  pose proof (log_summary_returns (detect_camera_ids ex) all st9
                (frames_intrinsics_loaded _ _ _ _ _ _ _ Hframes)) as Hsum.
  pose proof (read_only_log_summary true (detect_camera_ids ex) all st9) as [Hd9 Hf9].
  pose proof (log_summary_trace true (detect_camera_ids ex) all st9) as Htr.
  unfold bind, ret.
  destruct (log_summary true (detect_camera_ids ex) all st9) as [[e|[]] st10];
    cbn [fst snd] in *; [done|].
  split; [done|]. split; [by rewrite Hd9|]. split; [by rewrite Hf9|].
  intros Hnone. apply Htr. subst st9. cbn [trace].
  rewrite !elem_of_app. left. left. left. by apply Hwarn.
Qed.
End Master.

(** ** Runs that return [True] *)

Section Success.
Context {F : Type}.
Variable matmul : ndarray F -> ndarray F -> ndarray F.
Variable inv : ndarray F -> option (ndarray F).
Implicit Types st : world F.

(** A run that returns [True] has written the frames of the sorted keys
    and nothing else. *)
Lemma convert_returns_true epath ipath out idir ext w h cid nerf st ex :
  let r := convert_nuscenes_to_transforms matmul inv epath ipath out idir ext
             w h cid nerf true st in
  r.1 = Returned true ->
  (load_extrinsics_from_directory epath st).1 = Returned ex ->
  exists frames,
    fs_dirs r.2 = fs_dirs st /\
    fs_files r.2 = <[out := TransformsJson (Transforms None frames)]> (fs_files st) /\
    Forall2 (frame_of_key matmul inv st ipath idir ext w h ex)
            (sorted (keys ex)) frames /\
    (first_frame_candidates ex = [] ->
       Log WARNING No_front_camera_found ∈ trace r.2).
Proof.
  intros r Hr Hex.
  pose proof (convert_cases matmul inv epath ipath out idir ext w h cid nerf true st)
    as H.
  cbn zeta in H. fold r in H. rewrite Hex in H.
  case_bool_decide; [destruct H; congruence|].
  pose proof (load_all_intrinsics_outcome ipath w h (detect_camera_ids ex) st) as Hall.
  destruct (load_all_intrinsics ipath w h (detect_camera_ids ex) st).1 as [e|all];
    [destruct H; congruence|].
  pose proof (process_frames_loop matmul inv ex all (reference_pose ex) idir ext true
                (sorted (keys ex)) [] st) as [_ Hloop].
  destruct (for_each _ _ _ st).1 as [e|frames]; [destruct H; congruence|].
  destruct (fs_dirs st !! out); [destruct H; congruence|].
  destruct H as (_ & Hd & Hf & Hwarn). destruct Hloop as (new & -> & Hnew).
  exists new. split; [done|]. split; [done|]. split; [|done].
  eapply Forall2_impl; [apply Hnew|]. intros k fr Hfr. cbn beta in Hfr.
  apply process_frame_returned in Hfr
    as (raw & t & c & i & Hk & Hs & Hc & Hpath & Hint & Hpose).
  destruct (Hall c) as (oi & Hoi & Hload).
  { apply elem_of_detect_camera_ids. exists k. split; [by apply elem_of_keys|].
    unfold camera_component. by rewrite Hs. }
  rewrite Hc in Hoi. simplify_eq.
  pose proof (load_intrinsics_outcome ipath c w h st) as Hi. cbn zeta in Hi.
  rewrite Hload in Hi. destruct Hi as (n & fx & fy & cx & cy & rest & Hfile & _ & ->).
  exists raw, t, c, n, fx, fy, cx, cy, rest. by repeat split.
Qed.

Lemma frame_of_key_functional st ipath idir ext w h
    (ex : gmap string (ndarray F)) k fr fr' :
  frame_of_key matmul inv st ipath idir ext w h ex k fr ->
  frame_of_key matmul inv st ipath idir ext w h ex k fr' ->
  fr = fr'.
Proof.
  intros (raw & t & c & n & fx & fy & cx & cy & rest & Hk & Hs & Hf & Hp & Hi & Ht)
         (raw' & t' & c' & n' & fx' & fy' & cx' & cy' & rest' & Hk' & Hs' & Hf' & Hp'
            & Hi' & Ht').
  destruct fr as [p1 tm1 pf1], fr' as [p2 tm2 pf2]; cbn in *. simplify_eq.
  rewrite Hs in Hs'. simplify_eq.
  assert (tm1 = tm2) as ->.
  { destruct (reference_pose ex); [|congruence].
    destruct Ht as (ri & ? & ->), Ht' as (ri' & ? & ->). congruence. }
  done.
Qed.

Lemma frames_functional st ipath idir ext w h (ex : gmap string (ndarray F)) ks :
  forall frames frames',
  Forall2 (frame_of_key matmul inv st ipath idir ext w h ex) ks frames ->
  Forall2 (frame_of_key matmul inv st ipath idir ext w h ex) ks frames' ->
  frames = frames'.
Proof.
  induction ks as [|k ks IH]; intros frames frames' H H';
    inversion H; inversion H'; subst; [done|].
  f_equal; [by eapply frame_of_key_functional|by apply IH].
Qed.

Lemma frame_of_key_files st st' ipath idir ext w h (ex : gmap string (ndarray F)) k fr :
  fs_files st = fs_files st' ->
  frame_of_key matmul inv st ipath idir ext w h ex k fr ->
  frame_of_key matmul inv st' ipath idir ext w h ex k fr.
Proof. unfold frame_of_key. by intros ->. Qed.

(** Every key of a run that returns [True] splits in two. *)
Lemma frame_of_key_component st ipath idir ext w h (ex : gmap string (ndarray F)) k fr :
  frame_of_key matmul inv st ipath idir ext w h ex k fr ->
  is_Some (camera_component k).
Proof.
  intros (raw & t & c & n & fx & fy & cx & cy & rest & _ & Hs & _).
  unfold camera_component. rewrite Hs. eauto.
Qed.

Lemma NoDup_keys (ex : gmap string (ndarray F)) : NoDup (keys ex).
Proof. apply NoDup_fst_map_to_list. Qed.

Lemma length_keys (ex : gmap string (ndarray F)) : length (keys ex) = size ex.
Proof. unfold keys. by rewrite length_fmap, length_map_to_list. Qed.

Lemma elem_of_sorted_keys (ex : gmap string (ndarray F)) k :
  k ∈ sorted (keys ex) <-> is_Some (ex !! k).
Proof. by rewrite elem_of_sorted, elem_of_keys. Qed.

(** The candidates are the sorted keys that end in ["_0"]; the first is
    the least of them. *)
Lemma first_frame_candidates_head (ex : gmap string (ndarray F)) k0 rest :
  first_frame_candidates ex = k0 :: rest ->
  is_Some (ex !! k0) /\ endswith k0 "_0" = true /\
  forall k, is_Some (ex !! k) -> endswith k "_0" = true -> str_le k0 k.
Proof.
  unfold first_frame_candidates. intros Hc.
  assert (k0 ∈ List.filter (fun name => endswith name "_0") (sorted (keys ex))) as Hin
    by (rewrite Hc; by left).
  apply list_elem_of_In, filter_In in Hin as [Hin%list_elem_of_In Hend].
  split; [by apply elem_of_sorted_keys|]. split; [done|].
  intros k Hk Hkend.
  assert (k ∈ k0 :: rest) as Hk'.
  { rewrite <- Hc. apply list_elem_of_In, filter_In.
    split; [|done]. by apply list_elem_of_In, elem_of_sorted_keys. }
  assert (StronglySorted str_le (k0 :: rest)) as Hs.
  { rewrite <- Hc. clear. pose proof (sorted_StronglySorted (keys ex)) as H.
    induction H as [|x l Hl IH Hx]; cbn; [constructor|].
    destruct (endswith x "_0"); [|done]. constructor; [done|].
    apply Forall_forall. intros y Hy%list_elem_of_In.
    apply filter_In in Hy as [Hy%list_elem_of_In _].
    rewrite Forall_forall in Hx. by apply Hx. }
  apply elem_of_cons in Hk' as [->|Hk']; [done|].
  inversion Hs as [|? ? _ Hall]; subst. rewrite Forall_forall in Hall. by apply Hall.
Qed.

Lemma first_frame_candidates_nil (ex : gmap string (ndarray F)) k :
  first_frame_candidates ex = [] -> is_Some (ex !! k) -> endswith k "_0" = false.
Proof.
  unfold first_frame_candidates. intros Hc Hk.
  destruct (endswith k "_0") eqn:Hend; [|done].
  assert (k ∈ List.filter (fun name => endswith name "_0") (sorted (keys ex))) as Hin.
  { apply list_elem_of_In, filter_In. split; [|done].
    by apply list_elem_of_In, elem_of_sorted_keys. }
  rewrite Hc in Hin. by apply elem_of_nil in Hin.
Qed.

End Success.

(** ** The nuScenes converter: claims *)

Section NuscenesClaims.
Context {F : Type}.
Variable matmul : ndarray F -> ndarray F -> ndarray F.
Variable inv : ndarray F -> option (ndarray F).
Implicit Types st : world F.

Local Abbreviation convert := (convert_nuscenes_to_transforms matmul inv).

Lemma document_written st st' out (doc : transforms F) :
  fs_files st' = <[out := TransformsJson doc]> (fs_files st) ->
  document_at st' out = Some doc.
Proof. intros H. unfold document_at. by rewrite H, lookup_insert_eq. Qed.

(** C1. In multi-camera mode, when the first front-camera pose [reference]
    is found, the document the run writes holds, for every extrinsic key in
    sorted order, a frame whose [transform_matrix] is the matrix product of
    the inverse of [reference] and the raw 4x4 matrix loaded for that key. *)
Theorem C1_transform_is_inverse_reference_times_raw
    epath ipath out idir ext w h cid nerf st ex reference :
  let r := convert epath ipath out idir ext w h cid nerf true st in
  r.1 = Returned true ->
  (load_extrinsics_from_directory epath st).1 = Returned ex ->
  (load_camera_front_start epath ex st).1 = Returned (Some reference) ->
  exists doc,
    document_at r.2 out = Some doc /\
    Forall2 (fun key fr =>
               exists raw reference_inverse,
                 ex !! key = Some raw /\
                 inv reference = Some reference_inverse /\
                 transform_matrix fr = tolist (matmul reference_inverse raw))
            (sorted (keys ex)) (frames doc).
Proof.
  intros r Hr Hex Href.
  destruct (convert_returns_true matmul inv epath ipath out idir ext w h cid nerf st ex
              Hr Hex) as (frames & _ & Hf & Hframes & _).
  exists (Transforms None frames). split; [by eapply document_written|].
  apply load_extrinsics_lookup in Hex as (names & Hd & _).
  destruct (load_camera_front_start_run epath ex st) as [Hcfs _]; [by eauto|].
  rewrite Hcfs in Href. injection Href as Href.
  eapply Forall2_impl; [apply Hframes|]. intros key fr.
  intros (raw & t & c & n & fx & fy & cx & cy & rest & Hk & _ & _ & _ & _ & Ht).
  rewrite Href in Ht. destruct Ht as (ri & ? & ?). by exists raw, ri.
Qed.



Lemma read_extrinsics_files st st' dir f :
  fs_files st = fs_files st' -> read_extrinsics st dir f = read_extrinsics st' dir f.
Proof. intros H. unfold read_extrinsics. by rewrite H. Qed.


(** C5. When a listed [.txt] file of the extrinsics directory parses to an
    array whose shape is not 4x4, the run raises and leaves every file as
    it was; when every listed [.txt] file parses, the exception is the
    [ValueError] that carries the path and the shape of such a file. *)
Theorem C5_bad_shape_aborts_without_output
    epath ipath out idir ext w h cid nerf mc st names f a :
  let r := convert epath ipath out idir ext w h cid nerf mc st in
  fs_dirs st !! epath = Some names ->
  f ∈ names -> endswith f ".txt" = true ->
  fs_files st !! os_path_join epath f = Some (NumericText a) ->
  shape a <> [4; 4] ->
  (exists e, r.1 = Raised e) /\
  fs_equiv r.2 st /\
  ((forall f', f' ∈ txt_files names ->
      exists a', fs_files st !! os_path_join epath f' = Some (NumericText a')) ->
   exists f' a',
     f' ∈ txt_files names /\
     fs_files st !! os_path_join epath f' = Some (NumericText a') /\
     shape a' <> [4; 4] /\
     r.1 = Raised (ValueError_shape (os_path_join epath f') (shape a'))).
Proof.
  intros r Hd Hf Htxt Ha Hshape.
  pose proof (convert_cases matmul inv epath ipath out idir ext w h cid nerf mc st) as H.
  cbn zeta in H. fold r in H.
  pose proof (load_extrinsics_outcome epath st) as Hload.
  destruct (load_extrinsics_from_directory epath st).1 as [e|ex].
  - destruct H as [Hr Hfs]. split; [eauto|]. split; [done|]. intros Hparse.
    destruct Hload as [[Hnone _]|(names' & pre & f' & post & Hd' & Hfiles & _ & Hread)];
      [congruence|].
    assert (names' = names) as -> by congruence.
    assert (f' ∈ txt_files names) as Hf'.
    { rewrite Hfiles. apply elem_of_app. right. by left. }
    destruct (Hparse f' Hf') as [a' Ha']. exists f', a'.
    unfold read_extrinsics in Hread. rewrite Ha' in Hread.
    case_bool_decide as Hs; [done|]. injection Hread as <-. done.
  - destruct Hload as (names' & Hd' & Hok & _).
    assert (names' = names) as -> by congruence.
    rewrite Forall_forall in Hok. destruct (Hok f) as [a0 Ha0].
    { by apply txt_files_spec. }
    unfold read_extrinsics in Ha0. rewrite Ha in Ha0.
    by rewrite bool_decide_eq_false_2 in Ha0.
Qed.

(** C6. In multi-camera mode, when the intrinsics file of a camera id
    detected from the extrinsic keys is absent, [load_intrinsics] logs an
    error and returns [None], and the run raises and leaves every file as
    it was: no document is written. *)
Theorem C6_missing_intrinsics_is_fatal
    epath ipath out idir ext w h cid nerf st ex cam_id :
  let r := convert epath ipath out idir ext w h cid nerf true st in
  let intrinsics_file := os_path_join ipath (cam_id ++ ".txt") in
  (load_extrinsics_from_directory epath st).1 = Returned ex ->
  cam_id ∈ detect_camera_ids ex ->
  fs_dirs st !! intrinsics_file = None ->
  fs_files st !! intrinsics_file = None ->
  load_intrinsics ipath cam_id w h st =
    (Returned None,
     World (fs_dirs st) (fs_files st)
       (trace st ++ [PathExists intrinsics_file;
                     Log ERROR (Intrinsics_file_not_found intrinsics_file)])) /\
  (exists e, r.1 = Raised e) /\
  fs_equiv r.2 st.
Proof.
  intros r file Hex Hcam Hd Hf.
  pose proof (load_intrinsics_missing ipath cam_id w h st Hd Hf) as Hmiss.
  split; [done|].
  pose proof (convert_cases matmul inv epath ipath out idir ext w h cid nerf true st) as H.
  cbn zeta in H. fold r in H. rewrite Hex in H.
  case_bool_decide as Hempty.
  { subst ex. apply elem_of_detect_camera_ids in Hcam as (k & Hk%elem_of_keys & _).
    rewrite lookup_empty in Hk. by destruct Hk. }
  pose proof (load_all_intrinsics_outcome ipath w h (detect_camera_ids ex) st) as Hall.
  destruct (load_all_intrinsics ipath w h (detect_camera_ids ex) st).1 as [e|all];
    [destruct H; eauto|].
  destruct (for_each _ _ _ st).1 as [e|frames] eqn:Hloop; [destruct H; eauto|].
  destruct (frames_intrinsics_loaded matmul inv ex all _ idir ext frames st Hloop
              cam_id Hcam) as [i Hi].
  destruct (Hall cam_id Hcam) as (oi & Hoi & Hload).
  rewrite Hmiss in Hload. cbn in Hload. congruence.
Qed.


(** C8. The document a run writes holds one frame per extrinsic key, in
    the ascending lexicographic order of the keys, which are pairwise
    distinct; a run on the same files whose directory listing comes in
    another order writes the same document. *)
Theorem C8_one_frame_per_key_in_ascending_order
    epath ipath out idir ext w h cid nerf st ex :
  let r := convert epath ipath out idir ext w h cid nerf true st in
  r.1 = Returned true ->
  (load_extrinsics_from_directory epath st).1 = Returned ex ->
  exists doc,
    document_at r.2 out = Some doc /\
    length (frames doc) = size ex /\
    Forall2 (fun key fr => file_path fr = image_path_of idir key ext)
            (sorted (keys ex)) (frames doc) /\
    (forall key, key ∈ sorted (keys ex) <-> is_Some (ex !! key)) /\
    NoDup (sorted (keys ex)) /\
    StronglySorted str_le (sorted (keys ex)) /\
    forall st' names names',
      fs_files st' = fs_files st ->
      fs_dirs st !! epath = Some names ->
      fs_dirs st' !! epath = Some names' ->
      names' ≡ₚ names ->
      let r' := convert epath ipath out idir ext w h cid nerf true st' in
      r'.1 = Returned true -> document_at r'.2 out = Some doc.
Proof.
  intros r Hr Hex.
  destruct (convert_returns_true matmul inv epath ipath out idir ext w h cid nerf st ex
              Hr Hex) as (frames & _ & Hf & Hframes & _).
  exists (Transforms None frames). split; [by eapply document_written|].
  split.
  { cbn. by rewrite <- (Forall2_length _ _ _ Hframes), sorted_Permutation, length_keys. }
  split.
  { eapply Forall2_impl; [apply Hframes|]. intros key fr.
    by intros (raw & t & c & n & fx & fy & cx & cy & rest & _ & _ & _ & ? & _). }
  split; [apply elem_of_sorted_keys|].
  split; [rewrite sorted_Permutation; apply NoDup_keys|].
  split; [apply sorted_StronglySorted|].
  intros st' names names' Hfiles Hd Hd' Hperm r' Hr'.
  pose proof (convert_cases matmul inv epath ipath out idir ext w h cid nerf true st') as H.
  cbn zeta in H. fold r' in H.
  destruct (load_extrinsics_from_directory epath st').1 as [e|ex'] eqn:Hex';
    [destruct H; congruence|]. clear H.
  assert (ex' = ex) as ->.
  { apply load_extrinsics_lookup in Hex as (n1 & Hn1 & H1).
    apply load_extrinsics_lookup in Hex' as (n2 & Hn2 & H2).
    assert (n1 = names) as -> by congruence.
    assert (n2 = names') as -> by congruence.
    apply map_eq. intros k. apply option_eq. intros a'.
    rewrite H1, H2, Hperm. by rewrite (read_extrinsics_files st' st). }
  destruct (convert_returns_true matmul inv epath ipath out idir ext w h cid nerf st' ex
              Hr' Hex') as (frames' & _ & Hf' & Hframes' & _).
  assert (frames' = frames) as ->.
  { eapply frames_functional; [|apply Hframes].
    eapply Forall2_impl; [apply Hframes'|]. intros key fr.
    by apply frame_of_key_files. }
  by eapply document_written.
Qed.

(** C9, as amended. For every extrinsic key the [file_path] of its frame
    is [{images_dir}/{key}{image_ext}] when [images_dir] is a non-empty
    string, and [images/{key}{image_ext}] when it is absent or empty. *)
Theorem C9_file_path_of_each_key
    epath ipath out idir ext w h cid nerf st ex :
  let r := convert epath ipath out idir ext w h cid nerf true st in
  r.1 = Returned true ->
  (load_extrinsics_from_directory epath st).1 = Returned ex ->
  exists doc,
    document_at r.2 out = Some doc /\
    Forall2 (fun key fr =>
               (forall d, idir = Some d -> d <> "" ->
                          file_path fr = d ++ "/" ++ key ++ ext) /\
               (idir = None \/ idir = Some "" ->
                file_path fr = "images/" ++ key ++ ext))
            (sorted (keys ex)) (frames doc).
Proof.
  intros r Hr Hex.
  destruct (convert_returns_true matmul inv epath ipath out idir ext w h cid nerf st ex
              Hr Hex) as (frames & _ & Hf & Hframes & _).
  exists (Transforms None frames). split; [by eapply document_written|].
  eapply Forall2_impl; [apply Hframes|]. intros key fr.
  intros (raw & t & c & n & fx & fy & cx & cy & rest & _ & _ & _ & -> & _).
  unfold image_path_of. split.
  - intros d -> Hd. by destruct (String.eqb_spec d "").
  - by intros [->| ->].
Qed.
End NuscenesClaims.

(** ** The exact kernel and the aligned reference *)

Section ExactKernel.
Local Open Scope Qc_scope.


End ExactKernel.

Section Identity.
Context {F : Type}.
Variable matmul : ndarray F -> ndarray F -> ndarray F.
Variable inv : ndarray F -> option (ndarray F).
Variables zero one : F.
Implicit Types st : world F.

Local Abbreviation convert := (convert_nuscenes_to_transforms matmul inv).

End Identity.

(** ** The flat converter *)

Section CamerasClaims.
Context {F : Type}.
Variables zero one : F.
Implicit Types st : world F.

Lemma convert_camera_world cam frames st :
  (convert_camera zero one cam frames st).2 = st.
Proof. unfold convert_camera, ret, raise. by repeat case_match. Qed.

Lemma convert_camera_outcome cam frames st frames2 st2 :
  match (convert_camera zero one cam frames st).1 with
  | Raised e => (convert_camera zero one cam frames2 st2).1 = Raised e
  | Returned frames' =>
      exists fr : frame F, frames' = (frames ++ [fr])%list /\
        (convert_camera zero one cam frames2 st2).1 = Returned (frames2 ++ [fr])%list
  end.
Proof.
  unfold convert_camera, ret, raise.
  repeat case_match; simplify_eq/=; try done; by eexists.
Qed.

Lemma convert_cameras_loop cams :
  forall frames st,
  let r := for_each cams (convert_camera zero one) frames st in
  r.2 = st /\
  match r.1 with
  | Raised e => True
  | Returned frames' =>
      exists new, frames' = (frames ++ new)%list /\
        Forall2 (fun cam fr =>
                   (convert_camera zero one cam [] st).1 = Returned [fr]) cams new
  end.
Proof.
  induction cams as [|cam cams IH]; intros frames st.
  { cbn. split; [done|]. exists []. by rewrite app_nil_r. }
  cbn [for_each]. unfold bind.
  pose proof (convert_camera_world cam frames st) as Hw.
  pose proof (convert_camera_outcome cam frames st [] st) as Ho.
  destruct (convert_camera zero one cam frames st) as [[e|frames1] st1];
    cbn [fst snd] in *; subst st1; [done|].
  destruct Ho as (fr & -> & Hfr). specialize (IH (frames ++ [fr])%list st).
  cbn zeta in IH. destruct IH as [IHw IH]. split; [done|].
  destruct (for_each _ _ _ st) as [[e|frames'] st']; cbn [fst snd] in *; [done|].
  destruct IH as (new & -> & Hnew). exists (fr :: new).
  split; [by rewrite <- app_assoc|]. by constructor.
Qed.

(** The last row of the matrix of a converted record is untouched. *)
Lemma convert_camera_bottom_row cam fr st :
  (convert_camera zero one cam [] st).1 = Returned [fr] ->
  exists m00 m01 m02 m03 m10 m11 m12 m13 m20 m21 m22 m23,
    transform_matrix fr =
      Lst [Lst [Num m00; Num m01; Num m02; Num m03];
           Lst [Num m10; Num m11; Num m12; Num m13];
           Lst [Num m20; Num m21; Num m22; Num m23];
           Lst [Num zero; Num zero; Num zero; Num one]].
Proof.
  unfold convert_camera, ret, raise.
  destruct (np_array (rotation cam)) as [R|]; [|done].
  destruct (np_array (position cam)) as [p|]; [|done].
  unfold setitem_block. cbn [np_eye shape data flat_map map seq app Nat.eqb Nat.min].
  destruct (broadcast_to R [3; 3]) as [vals|]; [|done].
  cbn [imap shape data]. unfold setitem_column. cbn [shape data Nat.min].
  destruct (broadcast_to p [3]) as [col|]; [|done].
  cbn. intros [= <-]. cbn. eauto 15.
Qed.

(** A 3x3 rotation and a position of three numbers land in the upper
    three rows. *)
Lemma convert_camera_blocks cam fr st
    r00 r01 r02 r10 r11 r12 r20 r21 r22 p0 p1 p2 :
  (convert_camera zero one cam [] st).1 = Returned [fr] ->
  rotation cam = Lst [Lst [Num r00; Num r01; Num r02];
                      Lst [Num r10; Num r11; Num r12];
                      Lst [Num r20; Num r21; Num r22]] ->
  position cam = Lst [Num p0; Num p1; Num p2] ->
  transform_matrix fr =
    Lst [Lst [Num r00; Num r01; Num r02; Num p0];
         Lst [Num r10; Num r11; Num r12; Num p1];
         Lst [Num r20; Num r21; Num r22; Num p2];
         Lst [Num zero; Num zero; Num zero; Num one]].
Proof.
  unfold convert_camera, ret, raise. intros H Hrot Hpos.
  rewrite Hrot, Hpos in H. cbn in H. by injection H as <-.
Qed.

(** C10. The document the flat converter writes holds one frame per input
    record; its [transform_matrix] has four rows of four numbers, the last
    row being [0, 0, 0, 1], and for a record whose rotation is a 3x3 list
    and whose position a list of three numbers, the upper-left 3x3 block is
    the rotation and the upper three entries of the last column are the
    position. *)
Theorem C10_transform_matrix_of_camera_record input output st cameras_data :
  let r := convert_cameras_to_transforms zero one input output st in
  fs_files st !! input = Some (CamerasJson cameras_data) ->
  r.1 = Returned tt ->
  exists doc,
    document_at r.2 output = Some doc /\
    Forall2 (fun cam fr =>
      (exists m00 m01 m02 m03 m10 m11 m12 m13 m20 m21 m22 m23,
         transform_matrix fr =
           Lst [Lst [Num m00; Num m01; Num m02; Num m03];
                Lst [Num m10; Num m11; Num m12; Num m13];
                Lst [Num m20; Num m21; Num m22; Num m23];
                Lst [Num zero; Num zero; Num zero; Num one]]) /\
      (forall r00 r01 r02 r10 r11 r12 r20 r21 r22 p0 p1 p2,
         rotation cam = Lst [Lst [Num r00; Num r01; Num r02];
                             Lst [Num r10; Num r11; Num r12];
                             Lst [Num r20; Num r21; Num r22]] ->
         position cam = Lst [Num p0; Num p1; Num p2] ->
         transform_matrix fr =
           Lst [Lst [Num r00; Num r01; Num r02; Num p0];
                Lst [Num r10; Num r11; Num r12; Num p1];
                Lst [Num r20; Num r21; Num r22; Num p2];
                Lst [Num zero; Num zero; Num zero; Num one]]))
      cameras_data (frames doc).
Proof.
  intros r Hin. subst r.
  unfold convert_cameras_to_transforms, json_load, print, emit, mbind, M_bind, bind,
    json_dump.
  cbn [fst snd fs_dirs fs_files trace]. rewrite Hin.
  destruct cameras_data as [|first_cam cams]; [done|].
  set (st1 := World _ _ _).
  pose proof (convert_cameras_loop (first_cam :: cams) [] st1) as [Hw Hloop].
  cbn zeta in Hw, Hloop.
  destruct (for_each (first_cam :: cams) (convert_camera zero one) [] st1)
    as [[e|frames] st2]; cbn [fst snd] in *; [done|]. subst st2 st1.
  destruct Hloop as (new & -> & Hnew). rewrite app_nil_l.
  cbn [fs_dirs fs_files trace].
  destruct (fs_dirs st !! output); [done|]. intros _.
  exists (Transforms (Some (GlobalIntrinsics (cam_fx first_cam) (cam_fy first_cam)
                              (cam_width first_cam) (cam_height first_cam))) new).
  split.
  { unfold document_at. cbn [fst snd fs_files fs_dirs trace].
    by rewrite lookup_insert_eq. }
  eapply Forall2_impl; [apply Hnew|]. intros cam fr Hfr. cbn beta in Hfr. split.
  - exact (convert_camera_bottom_row _ _ _ Hfr).
  - intros. eapply convert_camera_blocks; eauto.
Qed.
End CamerasClaims.

(** ** The claims on the sample inputs *)

Section Runs.
Import Samples.

(** On the two frames the aligned poses are products with the inverse of
    the first front-camera pose. *)
Lemma C1_witness :
  exists doc,
    document_at (run (Some "images") true two_frames).2 "transforms.json" = Some doc /\
    Forall2 (fun key fr =>
               exists raw reference_inverse,
                 two_frames_extrinsics !! key = Some raw /\
                 Exact.inv turned44 = Some reference_inverse /\
                 transform_matrix fr = tolist (Exact.matmul reference_inverse raw))
            (sorted (keys two_frames_extrinsics)) (frames doc).
Proof.
  apply (C1_transform_is_inverse_reference_times_raw Exact.matmul Exact.inv
           "extrinsics" "intrinsics" "transforms.json" (Some "images") ".jpg" 1600 900
           "0" false two_frames two_frames_extrinsics turned44);
    vm_compute; reflexivity.
Defined.




(** The 3x3 matrix stops the run, in either mode. *)
Lemma C5_witness :
  (exists e, (run None true bad_shape).1 = Raised e) /\
  fs_equiv (run None true bad_shape).2 bad_shape /\
  (run None true bad_shape).1
    = Raised (ValueError_shape "extrinsics/001_0.txt" [3; 3]).
Proof.
  destruct (C5_bad_shape_aborts_without_output Exact.matmul Exact.inv
              "extrinsics" "intrinsics" "transforms.json" None ".jpg" 1600 900
              "0" false true bad_shape ["000_0.txt"; "001_0.txt"] "001_0.txt" matrix33)
    as (Hraise & Hfs & _).
  - vm_compute; reflexivity.
  - right. left.
  - vm_compute; reflexivity.
  - vm_compute; reflexivity.
  - vm_compute. discriminate.
  - split; [exact Hraise|]. split; [exact Hfs|]. vm_compute. reflexivity.
Defined.

(** Without [intrinsics/0.txt] the loader returns [None] and the run
    raises. *)
Lemma C6_witness :
  (load_intrinsics "intrinsics" "0" 1600 900 missing_intrinsics).1 = Returned None /\
  (exists e, (run None true missing_intrinsics).1 = Raised e) /\
  fs_equiv (run None true missing_intrinsics).2 missing_intrinsics.
Proof.
  destruct (C6_missing_intrinsics_is_fatal Exact.matmul Exact.inv
              "extrinsics" "intrinsics" "transforms.json" None ".jpg" 1600 900
              "0" false missing_intrinsics two_frames_extrinsics "0")
    as (Hload & Hraise & Hfs).
  - vm_compute; reflexivity.
  - vm_compute; reflexivity.
  - vm_compute; reflexivity.
  - vm_compute; reflexivity.
  - split; [by rewrite Hload|]. split; [exact Hraise|exact Hfs].
Defined.


(** The two frames come out in the order of their keys, whatever the
    order of the listing. *)
Lemma C8_witness :
  exists doc,
    document_at (run (Some "images") true two_frames).2 "transforms.json" = Some doc /\
    length (frames doc) = 2 /\
    map file_path (frames doc) = ["images/000_0.jpg"; "images/001_0.jpg"] /\
    document_at (run (Some "images") true two_frames_relisted).2 "transforms.json"
      = Some doc.
Proof.
  destruct (C8_one_frame_per_key_in_ascending_order Exact.matmul Exact.inv
              "extrinsics" "intrinsics" "transforms.json" (Some "images") ".jpg" 1600 900
              "0" false two_frames two_frames_extrinsics)
    as (doc & Hdoc & Hlen & Hpaths & _ & _ & _ & Hperm).
  - vm_compute; reflexivity.
  - vm_compute; reflexivity.
  - exists doc. split; [exact Hdoc|]. split; [exact Hlen|]. split.
    + clear -Hpaths.
      assert (sorted (keys two_frames_extrinsics) = ["000_0"; "001_0"]) as Hs
        by (vm_compute; reflexivity).
      rewrite Hs in Hpaths.
      inversion Hpaths as [|k0 f0 ks0 fs0 H0 Hrest]; subst.
      inversion Hrest as [|k1 f1 ks1 fs1 H1 Hnil]; subst.
      inversion Hnil; subst. cbn. by rewrite H0, H1.
    + apply (Hperm two_frames_relisted
               ["001_0.txt"; "000_0.txt"; "notes.md"]
               ["notes.md"; "000_0.txt"; "001_0.txt"]).
      * reflexivity.
      * vm_compute; reflexivity.
      * vm_compute; reflexivity.
      * exact (Permutation_rev ["notes.md"; "000_0.txt"; "001_0.txt"]).
      * vm_compute; reflexivity.
Defined.

(** C9 as stated fails for the empty [images_dir]: the path is
    [images/000_0.jpg] and not [/000_0.jpg]. *)
Lemma C9_counterexample :
  exists doc fr,
    document_at (run (Some "") true two_frames).2 "transforms.json" = Some doc /\
    sorted (keys two_frames_extrinsics) !! 0%nat = Some "000_0" /\
    frames doc !! 0%nat = Some fr /\
    file_path fr = "images/000_0.jpg" /\
    file_path fr <> "" ++ "/" ++ "000_0" ++ ".jpg".
Proof.
  eexists. eexists. split; [vm_compute; reflexivity|].
  split; [vm_compute; reflexivity|]. split; [vm_compute; reflexivity|].
  split; [vm_compute; reflexivity|]. vm_compute. discriminate.
Qed.

(** With the directory [frames] the paths are [frames/{key}.jpg]. *)
Lemma C9_witness :
  exists doc,
    document_at (run (Some "frames") true two_frames).2 "transforms.json" = Some doc /\
    map file_path (frames doc) = ["frames/000_0.jpg"; "frames/001_0.jpg"].
Proof.
  destruct (C9_file_path_of_each_key Exact.matmul Exact.inv
              "extrinsics" "intrinsics" "transforms.json" (Some "frames") ".jpg" 1600 900
              "0" false two_frames two_frames_extrinsics)
    as (doc & Hdoc & Hpaths).
  - vm_compute; reflexivity.
  - vm_compute; reflexivity.
  - exists doc. split; [exact Hdoc|].
    assert (sorted (keys two_frames_extrinsics) = ["000_0"; "001_0"]) as Hs
      by (vm_compute; reflexivity).
    rewrite Hs in Hpaths.
    inversion Hpaths as [|k0 f0 ks0 fs0 [H0 _] Hrest]; subst.
    inversion Hrest as [|k1 f1 ks1 fs1 [H1 _] Hnil]; subst.
    inversion Hnil; subst. cbn.
    by rewrite (H0 "frames" eq_refl), (H1 "frames" eq_refl).
Defined.

(** The record of the sample [cameras.json] becomes rotation beside
    position above [0, 0, 0, 1]. *)
Lemma C10_witness :
  exists doc fr,
    document_at
      (convert_cameras_to_transforms Exact.zero Exact.one
         "cameras.json" "transforms.json" cameras_file).2 "transforms.json" = Some doc /\
    frames doc = [fr] /\
    transform_matrix fr =
      Lst [Lst [Num (q 0); Num (q (-1)); Num (q 0); Num (q 7)];
           Lst [Num (q 1); Num (q 0); Num (q 0); Num (q 8)];
           Lst [Num (q 0); Num (q 0); Num (q 1); Num (q 9)];
           Lst [Num Exact.zero; Num Exact.zero; Num Exact.zero; Num Exact.one]].
Proof.
  destruct (C10_transform_matrix_of_camera_record Exact.zero Exact.one
              "cameras.json" "transforms.json" cameras_file [one_camera])
    as (doc & Hdoc & Hframes).
  - vm_compute; reflexivity.
  - vm_compute; reflexivity.
  - inversion Hframes as [|cam fr cams frs [_ Hblocks] Hnil Hcams Hfrs]; subst.
    inversion Hnil; subst. exists doc, fr. split; [exact Hdoc|]. split; [done|].
    by apply Hblocks.
Defined.
End Runs.

(** ** Further properties of the extrinsics loader *)

Section LoaderProperties.
Context {F : Type}.
Implicit Types st : world F.

Lemma load_extrinsics_file_run dir f (ex : gmap string (ndarray F)) v st a :
  read_extrinsics st dir f = Returned a ->
  load_extrinsics_file dir f (ex, v) st =
    (Returned (<[drop_last4 f := a]> ex, S v),
     World (fs_dirs st) (fs_files st)
       (trace st ++ [Loadtxt (os_path_join dir f);
                     Log INFO (Loaded_extrinsics_for (drop_last4 f))])).
Proof.
  unfold read_extrinsics, load_extrinsics_file, np_loadtxt, logger, emit,
    mbind, M_bind, bind, ret, raise. cbn [fst snd fs_dirs fs_files trace].
  destruct (fs_files st !! os_path_join dir f) as [[a'| | |]|]; try done.
  case_bool_decide; [|done]. intros [= ->]. cbn. by rewrite <- app_assoc.
Qed.

Lemma load_extrinsics_loop_trace dir files :
  forall (ex : gmap string (ndarray F)) v st r,
  (for_each files (load_extrinsics_file dir) (ex, v) st).1 = Returned r ->
  for_each files (load_extrinsics_file dir) (ex, v) st =
    (Returned (extrinsics_of st dir files ex, (v + length files)%nat),
     World (fs_dirs st) (fs_files st)
       (trace st ++
        flat_map (fun f => [Loadtxt (os_path_join dir f);
                            Log INFO (Loaded_extrinsics_for (drop_last4 f))]) files)).
Proof.
  induction files as [|f files IH]; intros ex v st r Hr.
  { cbn. unfold ret. rewrite app_nil_r, Nat.add_0_r. by destruct st. }
  pose proof (load_extrinsics_loop dir (f :: files) ex v st st (fs_equiv_refl st)) as H.
  rewrite Hr in H. destruct r as [ex' v']. destruct H as (Hok & _ & _).
  inversion Hok as [|? ? [a Ha] Hok']; subst.
  cbn [for_each] in *. unfold bind in *.
  rewrite (load_extrinsics_file_run dir f ex v st a Ha) in *.
  set (st1 := World _ _ _) in *.
  assert (fs_equiv st1 st) as Hst1 by done.
  rewrite (IH _ _ st1 _ Hr). f_equal.
  - f_equal. f_equal; [|simpl; lia].
    rewrite (extrinsics_of_equiv st1 st) by done.
    unfold extrinsics_of. cbn [foldl]. by rewrite Ha.
  - subst st1. cbn [fs_dirs fs_files trace flat_map]. f_equal.
    by rewrite <- app_assoc.
Qed.

(** X1. The dictionary the loader returns has the key [k] exactly when the
    file [k.txt] is listed, and holds under [k] the array of that file,
    which has shape (4, 4); the loader leaves every file as it was. *)
Theorem X1_loaded_extrinsics_are_the_listed_matrices dir st ex :
  (load_extrinsics_from_directory dir st).1 = Returned ex ->
  exists names,
    fs_dirs st !! dir = Some names /\
    fs_equiv (load_extrinsics_from_directory dir st).2 st /\
    forall k a,
      ex !! k = Some a <->
      (k ++ ".txt") ∈ names /\
      fs_files st !! os_path_join dir (k ++ ".txt") = Some (NumericText a) /\
      shape a = [4; 4].
Proof.
  intros Hex. destruct (load_extrinsics_lookup dir st ex Hex) as (names & Hd & H).
  exists names. split; [done|]. split; [apply read_only_load_extrinsics|].
  intros k a. rewrite H. split.
  - intros [Hin Hr]. split; [done|]. by apply read_extrinsics_shape.
  - intros (Hin & Hf & Hs). split; [done|]. unfold read_extrinsics.
    rewrite Hf. by rewrite bool_decide_eq_true_2.
Qed.

(** X2. On a directory that lists no name ending in [.txt] the loader
    reads no file: it lists the directory, logs the error that no
    extrinsics files were found and returns the empty dictionary. *)
Theorem X2_directory_without_txt_files dir st names :
  fs_dirs st !! dir = Some names ->
  (forall f, f ∈ names -> endswith f ".txt" = false) ->
  load_extrinsics_from_directory dir st =
    (Returned ∅,
     World (fs_dirs st) (fs_files st)
       (trace st ++ [Log INFO (Scanning_extrinsics_directory dir);
                     Listdir dir;
                     Log ERROR (No_extrinsics_files_found dir)])).
Proof.
  intros Hd Hnone.
  assert (txt_files names = []) as Htxt.
  { destruct (txt_files names) as [|f l] eqn:E; [done|].
    assert (f ∈ txt_files names) as [Hf Hend]%txt_files_spec by (rewrite E; by left).
    by rewrite (Hnone f Hf) in Hend. }
  unfold load_extrinsics_from_directory, os_listdir, logger, emit,
    mbind, M_bind, bind, ret. cbn [fst snd fs_dirs fs_files trace].
  rewrite Hd. cbn [fst snd]. fold (txt_files names). rewrite Htxt.
  cbn [fst snd fs_dirs fs_files trace]. by rewrite <- !app_assoc.
Qed.

(** X3. When the loader returns on a directory that lists at least one
    [.txt] name, it has read each listed [.txt] file once, in the order of
    the listing, and no other file, and its summary counts every one of
    them as loaded. *)
Theorem X3_every_txt_file_is_read_once_in_listing_order dir st ex names :
  fs_dirs st !! dir = Some names ->
  txt_files names <> [] ->
  (load_extrinsics_from_directory dir st).1 = Returned ex ->
  trace (load_extrinsics_from_directory dir st).2 =
    (trace st ++
     [Log INFO (Scanning_extrinsics_directory dir);
      Listdir dir;
      Log INFO (Found_potential_files (length (txt_files names)))] ++
     flat_map (fun f => [Loadtxt (os_path_join dir f);
                         Log INFO (Loaded_extrinsics_for (drop_last4 f))])
              (txt_files names) ++
     [Log INFO (Loaded_extrinsics_files (length (txt_files names))
                                        (length (txt_files names)))])%list.
Proof.
  intros Hd Hne. 
  unfold load_extrinsics_from_directory, os_listdir, logger, emit,
    mbind, M_bind, bind, ret. cbn [fst snd fs_dirs fs_files trace].
  rewrite Hd. cbn [fst snd]. fold (txt_files names).
  destruct (txt_files names) as [|f files] eqn:Htxt; [done|].
  set (st1 := World _ _ _).
  destruct (for_each (f :: files) (load_extrinsics_file dir) (∅, 0%nat) st1)
    as [[e|[ex' v']] st2] eqn:Hloop; [done|].
  pose proof (load_extrinsics_loop_trace dir (f :: files) ∅ 0%nat st1 (ex', v')) as H.
  rewrite Hloop in H. specialize (H eq_refl). injection H as _ Hv ->.
  intros _. subst st1. cbn [fst snd fs_dirs fs_files trace]. subst v'.
  rewrite <- !app_assoc. reflexivity.
Qed.

(** X4. A key and the name of its file determine each other: removing the
    last four characters of [key.txt] gives [key], and a name that ends in
    [.txt] is its key followed by [.txt]. *)
Theorem X4_key_and_file_name_round_trip key f :
  drop_last4 (key ++ ".txt") = key /\
  (endswith f ".txt" = true -> drop_last4 f ++ ".txt" = f).
Proof.
  split; [apply drop_last4_txt|]. intros H. symmetry. by apply endswith_txt.
Qed.
End LoaderProperties.

(** ** Further properties of the nuScenes converter *)

Section ConverterProperties.
Context {F : Type}.
Variable matmul : ndarray F -> ndarray F -> ndarray F.
Variable inv : ndarray F -> option (ndarray F).
Implicit Types st : world F.

Local Abbreviation convert := (convert_nuscenes_to_transforms matmul inv).

(** A run returns [True] after writing the document, returns [False] on
    an empty dictionary, or raises; in the last two cases it leaves every
    file as it was. *)
Lemma convert_trichotomy epath ipath out idir ext w h cid nerf mc st :
  let r := convert epath ipath out idir ext w h cid nerf mc st in
  (r.1 = Returned true /\ mc = true /\
   fs_dirs r.2 = fs_dirs st /\
   exists ex frames,
     (load_extrinsics_from_directory epath st).1 = Returned ex /\ ex <> ∅ /\
     fs_files r.2 = <[out := TransformsJson (Transforms None frames)]> (fs_files st))
  \/ (r.1 = Returned false /\
      (load_extrinsics_from_directory epath st).1 = Returned ∅ /\ fs_equiv r.2 st)
  \/ (exists e, r.1 = Raised e /\ fs_equiv r.2 st /\
        ((load_extrinsics_from_directory epath st).1 = Returned ∅ -> False)).
Proof.
  intros r.
  pose proof (convert_cases matmul inv epath ipath out idir ext w h cid nerf mc st) as H.
  cbn zeta in H. fold r in H.
  destruct (load_extrinsics_from_directory epath st).1 as [e|ex] eqn:Hex.
  { right. right. exists e. destruct H. split; [done|]. by split. }
  case_bool_decide as Hempty.
  { subst ex. right. left. destruct H. split; [done|]. by split. }
  assert (Returned ex = Returned ∅ -> False) as Hne by (intros [= ->]; done).
  destruct mc; [|right; right; destruct H; eauto 6].
  destruct (load_all_intrinsics ipath w h (detect_camera_ids ex) st).1 as [e|all];
    [right; right; destruct H; eauto 6|].
  destruct (for_each _ _ _ st).1 as [e|frames];
    [right; right; destruct H; eauto 6|].
  destruct (fs_dirs st !! out); [right; right; destruct H; eauto 6|].
  destruct H as (Hr & Hd & Hf & _). left. split; [done|]. split; [done|].
  split; [done|]. by exists ex, frames.
Qed.

(** The dictionary of a directory that lists a [.txt] name is not empty. *)
Lemma load_extrinsics_empty_iff dir st ex names :
  fs_dirs st !! dir = Some names ->
  (load_extrinsics_from_directory dir st).1 = Returned ex ->
  ex = ∅ <-> txt_files names = [].
Proof.
  intros Hd Hex. pose proof (load_extrinsics_outcome dir st) as H.
  rewrite Hex in H. destruct H as (names' & Hd' & Hok & ->).
  assert (names' = names) as -> by congruence. split.
  - intros Hempty. destruct (txt_files names) as [|f files] eqn:Htxt; [done|].
    inversion Hok as [|? ? [a Ha] Hok']; subst.
    assert (extrinsics_of st dir (f :: files) ∅ !! drop_last4 f = Some a) as Hl.
    { apply extrinsics_of_lookup.
      - rewrite <- Htxt. apply Forall_forall. by intros g [_ ?]%txt_files_spec.
      - done.
      - left. exists f. split; [by left|done]. }
    rewrite Hempty in Hl. by rewrite lookup_empty in Hl.
  - by intros ->.
Qed.

(** X5. The two tests the converter makes on a key agree when the key
    splits in two on ["_"]: it ends in ["_0"] (the test that selects the
    reference pose) exactly when its second part, the camera id used for
    the intrinsics, is ["0"]. *)
Theorem X5_suffix_test_agrees_with_camera_id key timestep cam_id :
  split "_" key = [timestep; cam_id] ->
  endswith key "_0" = true <-> cam_id = "0".
Proof.
  intros Hs. rewrite (endswith_camera_component key timestep cam_id Hs).
  apply String.eqb_eq.
Qed.

(** A run writes the document and returns [True], or leaves every file
    as it was. *)
Lemma convert_all_or_nothing epath ipath out idir ext w h cid nerf mc st :
  let r := convert epath ipath out idir ext w h cid nerf mc st in
  (r.1 = Returned true /\
   fs_dirs r.2 = fs_dirs st /\
   exists frames,
     fs_files r.2 = <[out := TransformsJson (Transforms None frames)]> (fs_files st))
  \/ (r.1 <> Returned true /\ fs_equiv r.2 st).
Proof.
  intros r. subst r.
  destruct (convert_trichotomy epath ipath out idir ext w h cid nerf mc st)
    as [(Hr & _ & Hd & ex & frames & _ & _ & Hf)|[(Hr & _ & Hfs)|(e & Hr & Hfs & _)]].
  - left. eauto.
  - right. split; [congruence|done].
  - right. split; [congruence|done].
Qed.

(** X6. A run either returns [True], having written the document at the
    output path and changed no other file, or it leaves every file as it
    was: no run writes a document and then fails. *)
Theorem X6_document_is_written_exactly_when_the_run_returns_true
    epath ipath out idir ext w h cid nerf mc st :
  let r := convert epath ipath out idir ext w h cid nerf mc st in
  (r.1 = Returned true /\
   fs_dirs r.2 = fs_dirs st /\
   forall path, path <> out -> fs_files r.2 !! path = fs_files st !! path) /\
  (exists doc, document_at r.2 out = Some doc)
  \/ (r.1 <> Returned true /\ fs_equiv r.2 st).
Proof.
  intros r. subst r.
  destruct (convert_all_or_nothing epath ipath out idir ext w h cid nerf mc st)
    as [(Hr & Hd & frames & Hf)|H]; [left|by right].
  split; [|eexists; by eapply document_written].
  split; [done|]. split; [done|]. intros path Hne. rewrite Hf.
  by rewrite lookup_insert_ne.
Qed.

(** X7. On an existing extrinsics directory the run returns [False]
    exactly when the directory lists no name ending in [.txt], in either
    mode. *)
Theorem X7_returns_false_exactly_without_txt_files
    epath ipath out idir ext w h cid nerf mc st names :
  let r := convert epath ipath out idir ext w h cid nerf mc st in
  fs_dirs st !! epath = Some names ->
  r.1 = Returned false <-> txt_files names = [].
Proof.
  intros r Hd. subst r.
  destruct (convert_trichotomy epath ipath out idir ext w h cid nerf mc st)
    as [(Hr & _ & _ & ex & frames & Hex & Hne & _)|[(Hr & Hex & _)|(e & Hr & _ & Hne)]].
  - rewrite Hr. split; [done|]. intros Htxt. destruct Hne.
    by apply (load_extrinsics_empty_iff epath st ex names).
  - split; [|done]. intros _.
    by apply (load_extrinsics_empty_iff epath st ∅ names).
  - rewrite Hr. split; [done|]. intros Htxt. destruct Hne.
    pose proof (load_extrinsics_outcome epath st) as H.
    destruct (load_extrinsics_from_directory epath st).1 as [e'|ex] eqn:Hex.
    + destruct H as [[? _]|(names' & pre & f & post & Hd' & Hfiles & _)];
        [congruence|].
      assert (names' = names) as -> by congruence. rewrite Htxt in Hfiles.
      by destruct pre.
    + f_equal. by apply (load_extrinsics_empty_iff epath st ex names).
Qed.

(** X8. The document of a multi-camera run has no top-level intrinsics,
    and the frame of each key carries the first four values of the
    intrinsics file of that key's own camera, with the width and height
    the caller passed. *)
Theorem X8_each_frame_carries_the_intrinsics_of_its_camera
    epath ipath out idir ext w h cid nerf st ex :
  let r := convert epath ipath out idir ext w h cid nerf true st in
  r.1 = Returned true ->
  (load_extrinsics_from_directory epath st).1 = Returned ex ->
  exists doc,
    document_at r.2 out = Some doc /\
    globals doc = None /\
    Forall2 (fun key fr =>
               exists timestep cam_id n fx fy cx cy rest,
                 split "_" key = [timestep; cam_id] /\
                 fs_files st !! os_path_join ipath (cam_id ++ ".txt")
                   = Some (NumericText (NdArray [n] (fx :: fy :: cx :: cy :: rest))) /\
                 per_frame fr = Some (FrameIntrinsics fx fy cx cy w h))
            (sorted (keys ex)) (frames doc).
Proof.
  intros r Hr Hex.
  destruct (convert_returns_true matmul inv epath ipath out idir ext w h cid nerf st ex
              Hr Hex) as (frames & _ & Hf & Hframes & _).
  exists (Transforms None frames). split; [by eapply document_written|].
  split; [done|].
  eapply Forall2_impl; [apply Hframes|]. intros key fr.
  intros (raw & t & c & n & fx & fy & cx & cy & rest & _ & Hs & Hfile & _ & Hi & _).
  by exists t, c, n, fx, fy, cx, cy, rest.
Qed.

(** X9. A key that does not split in two on ["_"] is fatal in
    multi-camera mode: the run raises and leaves every file as it was. *)
Theorem X9_key_that_does_not_split_in_two_is_fatal
    epath ipath out idir ext w h cid nerf st ex key :
  let r := convert epath ipath out idir ext w h cid nerf true st in
  (load_extrinsics_from_directory epath st).1 = Returned ex ->
  is_Some (ex !! key) ->
  camera_component key = None ->
  (exists e, r.1 = Raised e) /\ fs_equiv r.2 st.
Proof.
  intros r Hex Hkey Hnone. subst r.
  destruct (convert_trichotomy epath ipath out idir ext w h cid nerf true st)
    as [(Hr & _)|[(Hr & Hex' & _)|(e & Hr & Hfs & _)]].
  - destruct (convert_returns_true matmul inv epath ipath out idir ext w h cid nerf st ex
                Hr Hex) as (frames & _ & _ & Hframes & _).
    apply elem_of_sorted_keys, list_elem_of_lookup in Hkey as [n Hn].
    destruct (Forall2_lookup_l _ _ _ _ _ Hframes Hn) as (fr & _ & Hfr).
    apply frame_of_key_component in Hfr as [c Hc]. congruence.
  - rewrite Hex in Hex'. injection Hex' as ->.
    rewrite lookup_empty in Hkey. by destruct Hkey.
  - eauto.
Qed.
End ConverterProperties.

Section ConverterProperties2.
Context {F : Type}.
Variable matmul : ndarray F -> ndarray F -> ndarray F.
Variable inv : ndarray F -> option (ndarray F).
Implicit Types st : world F.

Local Abbreviation convert := (convert_nuscenes_to_transforms matmul inv).




(** X10. A reference pose that [np.linalg.inv] rejects is fatal: the run
    raises and leaves every file as it was, and when the intrinsics of all
    cameras load, what it raises is [LinAlgError]. *)
Theorem X10_singular_reference_is_fatal
    epath ipath out idir ext w h cid nerf st ex reference :
  let r := convert epath ipath out idir ext w h cid nerf true st in
  (load_extrinsics_from_directory epath st).1 = Returned ex ->
  reference_pose ex = Some reference ->
  inv reference = None ->
  (exists e, r.1 = Raised e) /\
  fs_equiv r.2 st /\
  (forall all,
     (load_all_intrinsics ipath w h (detect_camera_ids ex) st).1 = Returned all ->
     r.1 = Raised LinAlgError).
Proof.
  intros r Hex Href Hinv. subst r.
  pose proof (convert_cases matmul inv epath ipath out idir ext w h cid nerf true st) as H.
  cbn zeta in H. rewrite Hex in H.
  assert (exists k ks raw, sorted (keys ex) = k :: ks /\ ex !! k = Some raw)
    as (k & ks & raw & Hks & Hk).
  { unfold reference_pose in Href.
    destruct (first_frame_candidates ex) as [|k0 rest] eqn:Hc; [done|].
    destruct (sorted (keys ex)) as [|k ks] eqn:Hs.
    - apply first_frame_candidates_head in Hc as [Hin _].
      apply elem_of_sorted_keys in Hin. rewrite Hs in Hin. by apply elem_of_nil in Hin.
    - assert (is_Some (ex !! k)) as [raw ?].
      { apply elem_of_sorted_keys. rewrite Hs. by left. }
      by exists k, ks, raw. }
  case_bool_decide as Hempty; [subst ex; by rewrite lookup_empty in Hk|].
  destruct (load_all_intrinsics ipath w h (detect_camera_ids ex) st).1 as [e|all].
  { destruct H. split; [eauto|]. split; [done|]. by intros all [=]. }
  assert ((for_each (sorted (keys ex))
             (process_frame matmul inv ex all (reference_pose ex) idir ext true) [] st).1
          = Raised LinAlgError) as Hloop.
  { rewrite Hks. cbn [for_each]. unfold bind, process_frame at 1, mbind, M_bind, bind,
      ret, raise. rewrite Hk, Href, Hinv. done. }
  rewrite Hloop in H. destruct H. split; [eauto|]. split; [done|]. by intros.
Qed.



(** X13. When the loop over the camera ids returns, [all_intrinsics] has
    an entry for each camera id it was given and for no other, and the
    entry is [None] exactly when the intrinsics file of the camera does not
    exist. *)
Theorem X13_all_intrinsics_has_one_entry_per_camera p w h ids st all :
  (load_all_intrinsics p w h ids st).1 = Returned all ->
  forall c,
    (c ∈ ids ->
       exists oi, all !! c = Some oi /\
         (oi = None <->
          fs_dirs st !! os_path_join p (c ++ ".txt") = None /\
          fs_files st !! os_path_join p (c ++ ".txt") = None)) /\
    (c ∉ ids -> all !! c = None).
Proof.
  intros Hall c. unfold load_all_intrinsics in Hall.
  pose proof (load_all_intrinsics_loop p w h (sorted (elements ids)) ∅ st st
                (fs_equiv_refl st)) as H.
  rewrite Hall in H. destruct H as [Hin Hout]. split.
  - intros Hc. destruct (Hin c) as (oi & Hoi & Hload).
    { by rewrite elem_of_sorted, elem_of_elements. }
    exists oi. split; [done|].
    pose proof (load_intrinsics_outcome p c w h st) as Ho. cbn zeta in Ho.
    rewrite Hload in Ho. destruct oi as [i|].
    + destruct Ho as (n & fx & fy & cx & cy & rest & Hf & _). split; [done|].
      intros [_ Hnone]. congruence.
    + by split.
  - intros Hc. rewrite Hout, ?lookup_empty; [done|].
    by rewrite elem_of_sorted, elem_of_elements.
Qed.

(** X21. The camera ids for which intrinsics are loaded are the second
    parts of the keys that split in exactly two on ["_"]; a key that splits
    otherwise contributes no camera id. *)
Theorem X21_detected_camera_ids (ex : gmap string (ndarray F)) cam_id :
  cam_id ∈ detect_camera_ids ex <->
  exists key timestep, is_Some (ex !! key) /\ split "_" key = [timestep; cam_id].
Proof.
  rewrite elem_of_detect_camera_ids. unfold camera_component. split.
  - intros (key & Hkey%elem_of_keys & Hc).
    destruct (split "_" key) as [|t [|c [|? ?]]] eqn:Hs; try done.
    injection Hc as ->. by exists key, t.
  - intros (key & t & Hkey & Hs). exists key. split; [by apply elem_of_keys|].
    by rewrite Hs.
Qed.

(** *** The command line *)

Local Abbreviation main_of := (main matmul inv).


(** X15. Without [--multi_camera], [main] never exits with status 0 and
    never writes a file: it exits with status 1 when the extrinsics
    directory lists no [.txt] name, and raises otherwise. *)
Theorem X15_main_without_multi_camera_never_succeeds args st :
  let r := main_of args st in
  args_multi_camera args = false ->
  r.1 <> Returned 0%Z /\ fs_equiv r.2 st.
Proof.
  intros r Hmc. subst r. unfold main, mbind, M_bind, bind, ret. rewrite Hmc.
  destruct (convert_trichotomy matmul inv
              (os_path_join (args_root args) (args_extrinsics_dir args))
              (os_path_join (args_root args) (args_intrinsics_dir args))
              (args_output args) (Some (args_images_dir args)) (args_image_ext args)
              (args_width args) (args_height args) (args_camera_id args)
              (args_apply_nerf_transform args) false st)
    as [(_ & ? & _)|[(Hr & _ & Hfs)|(e & Hr & Hfs & _)]]; [done| |].
  - destruct (convert _ _ _ _ _ _ _ _ _ _ st) as [o st']; cbn [fst snd] in *.
    subst o. by cbn.
  - destruct (convert _ _ _ _ _ _ _ _ _ _ st) as [o st']; cbn [fst snd] in *.
    subst o. by cbn.
Qed.
End ConverterProperties2.

(** ** Further properties of the flat converter *)

Section CamerasProperties.
Context {F : Type}.
Variables zero one : F.
Implicit Types st : world F.

Local Abbreviation convert_cameras := (convert_cameras_to_transforms zero one).

Lemma convert_cameras_loop_raises cams cam e :
  forall frames st,
  cam ∈ cams ->
  (convert_camera zero one cam [] st).1 = Raised e ->
  exists e', (for_each cams (convert_camera zero one) frames st).1 = Raised e'.
Proof.
  induction cams as [|c cams IH]; intros frames st Hin He.
  { by apply elem_of_nil in Hin. }
  cbn [for_each]. unfold bind.
  pose proof (convert_camera_world zero one c frames st) as Hw.
  pose proof (convert_camera_outcome zero one c frames st [] st) as Ho.
  destruct (convert_camera zero one c frames st) as [[e1|frames1] st1];
    cbn [fst snd] in *; [eauto|]. subst st1.
  apply elem_of_cons in Hin as [->|Hin].
  - destruct Ho as (fr & _ & Hfr). congruence.
  - by apply IH.
Qed.

(** The run of the flat converter, read off the input file. *)
Lemma convert_cameras_run input output st :
  let r := convert_cameras input output st in
  let st1 := World (fs_dirs st) (fs_files st) (trace st ++ [JsonLoad input]) in
  match fs_files st !! input with
  | Some (CamerasJson []) => r = (Raised ValueError_empty_cameras, st1)
  | Some (CamerasJson (first_cam :: cams)) =>
      match (for_each (first_cam :: cams) (convert_camera zero one) [] st1).1 with
      | Raised e => r = (Raised e, st1)
      | Returned frames =>
          let doc := Transforms
                       (Some (GlobalIntrinsics (cam_fx first_cam) (cam_fy first_cam)
                                (cam_width first_cam) (cam_height first_cam)))
                       frames in
          match fs_dirs st !! output with
          | Some _ => r = (Raised (OSError output), st1)
          | None =>
              r.1 = Returned tt /\
              fs_dirs r.2 = fs_dirs st /\
              fs_files r.2 = <[output := TransformsJson doc]> (fs_files st)
          end
      end
  | Some _ => r = (Raised (JSONDecodeError input), st1)
  | None => r = (Raised (OSError input), st1)
  end.
Proof.
  intros r st1. subst r.
  unfold convert_cameras_to_transforms, json_load, print, emit, mbind, M_bind, bind,
    json_dump.
  cbn [fst snd fs_dirs fs_files trace]. fold st1.
  destruct (fs_files st !! input) as [[a|[|first_cam cams]|doc|]|]; try done.
  pose proof (convert_cameras_loop zero one (first_cam :: cams) [] st1) as [Hw _].
  cbn zeta in Hw.
  destruct (for_each (first_cam :: cams) (convert_camera zero one) [] st1)
    as [[e|frames] st2]; cbn [fst snd] in *; subst st2; [done|].
  subst st1. cbn [fs_dirs fs_files trace].
  by destruct (fs_dirs st !! output).
Qed.

(** X16. An empty [cameras.json] list is refused: the converter raises
    the [ValueError] "Empty cameras data" right after reading the input,
    and writes nothing. *)
Theorem X16_empty_cameras_list_is_refused input output st :
  fs_files st !! input = Some (CamerasJson []) ->
  convert_cameras_to_transforms zero one input output st =
    (Raised ValueError_empty_cameras,
     World (fs_dirs st) (fs_files st) (trace st ++ [JsonLoad input])).
Proof.
  intros Hin. pose proof (convert_cameras_run input output st) as H.
  cbn zeta in H. by rewrite Hin in H.
Qed.


(** X18. The top-level intrinsics of the written document are those of
    the first record alone; the frames follow the records in their order,
    each with the path [images/{img_name}.jpg] and without intrinsics of
    its own. *)
Theorem X18_globals_of_first_record_and_paths_in_input_order
    input output st first_cam cams :
  let r := convert_cameras input output st in
  fs_files st !! input = Some (CamerasJson (first_cam :: cams)) ->
  r.1 = Returned tt ->
  exists doc,
    document_at r.2 output = Some doc /\
    globals doc = Some (GlobalIntrinsics (cam_fx first_cam) (cam_fy first_cam)
                          (cam_width first_cam) (cam_height first_cam)) /\
    Forall2 (fun cam fr =>
               file_path fr = "images/" ++ img_name cam ++ ".jpg" /\
               per_frame fr = None)
            (first_cam :: cams) (frames doc).
Proof.
  intros r Hin Hr. subst r. pose proof (convert_cameras_run input output st) as H.
  cbn zeta in H. rewrite Hin in H.
  set (st1 := World _ _ _) in H.
  pose proof (convert_cameras_loop zero one (first_cam :: cams) [] st1) as [_ Hloop].
  cbn zeta in Hloop.
  destruct (for_each _ _ _ st1).1 as [e|frames]; [rewrite H in Hr; done|].
  destruct (fs_dirs st !! output); [rewrite H in Hr; done|].
  destruct H as (_ & _ & Hf). destruct Hloop as (new & -> & Hnew).
  eexists. split; [by eapply document_written|]. split; [done|].
  cbn [frames]. rewrite app_nil_l.
  eapply Forall2_impl; [apply Hnew|]. intros cam fr. cbn beta.
  unfold convert_camera, ret, raise. repeat case_match; try done.
  by intros [= <-].
Qed.

(** X19. A record whose position is a flat list of a number of values
    other than 1 or 3 stops the conversion: the converter raises and writes
    nothing. *)
Theorem X19_position_of_wrong_length_is_fatal
    input output st cameras_data cam n d :
  let r := convert_cameras input output st in
  fs_files st !! input = Some (CamerasJson cameras_data) ->
  cam ∈ cameras_data ->
  np_array (position cam) = Some (NdArray [n] d) ->
  n <> 1 -> n <> 3 ->
  (exists e, r.1 = Raised e) /\ fs_equiv r.2 st.
Proof.
  intros r Hin Hcam Hpos Hn1 Hn3. subst r.
  pose proof (convert_cameras_run input output st) as H.
  cbn zeta in H. rewrite Hin in H. set (st1 := World _ _ _) in H.
  destruct cameras_data as [|first_cam cams]; [by apply elem_of_nil in Hcam|].
  assert (exists e, (convert_camera zero one cam [] st1).1 = Raised e) as [e He].
  { unfold convert_camera, ret, raise. rewrite Hpos.
    destruct (np_array (rotation cam)) as [R|]; [|eauto].
    destruct (setitem_block (np_eye zero one 4) 3 3 R) as [tm|] eqn:Hb; [|eauto].
    assert (shape tm = [4; 4]) as Hs.
    { unfold setitem_block in Hb. cbn [np_eye shape] in Hb.
      destruct (broadcast_to R _); [|done]. by injection Hb as <-. }
    unfold setitem_column. rewrite Hs. unfold broadcast_to.
    cbn [shape length strip_leading_ones Nat.sub replicate app broadcastable Nat.min].
    destruct (Nat.eqb_spec n 3); [done|]. destruct (Nat.eqb_spec n 1); [done|].
    cbn. eauto. }
  destruct (convert_cameras_loop_raises (first_cam :: cams) cam e [] st1 Hcam He)
    as [e' He'].
  rewrite He' in H. rewrite H. split; [eauto|done].
Qed.


End CamerasProperties.

(** ** The further properties on the sample inputs *)

Section MoreRuns.
Import Samples MoreSamples.

Lemma X1_witness :
  fs_files two_frames !! "extrinsics/000_0.txt" = Some (NumericText turned44) /\
  shape turned44 = [4; 4].
Proof.
  destruct (X1_loaded_extrinsics_are_the_listed_matrices
              "extrinsics" two_frames two_frames_extrinsics)
    as (names & _ & _ & H); [vm_compute; reflexivity|].
  assert (two_frames_extrinsics !! "000_0" = Some turned44) as Hk
    by (vm_compute; reflexivity).
  apply H in Hk as (_ & Hf & Hs). split; [exact Hf|exact Hs].
Defined.

Lemma X2_witness :
  load_extrinsics_from_directory "extrinsics" only_notes =
    (Returned ∅,
     World (fs_dirs only_notes) (fs_files only_notes)
       [Log INFO (Scanning_extrinsics_directory "extrinsics");
        Listdir "extrinsics";
        Log ERROR (No_extrinsics_files_found "extrinsics")]).
Proof.
  apply (X2_directory_without_txt_files "extrinsics" only_notes ["notes.md"; "README"]).
  - vm_compute; reflexivity.
  - intros f Hf. apply elem_of_cons in Hf as [->|Hf]; [vm_compute; reflexivity|].
    apply elem_of_cons in Hf as [->|Hf]; [vm_compute; reflexivity|].
    by apply elem_of_nil in Hf.
Defined.

Lemma X3_witness :
  trace (load_extrinsics_from_directory "extrinsics" two_frames).2 =
    [Log INFO (Scanning_extrinsics_directory "extrinsics");
     Listdir "extrinsics";
     Log INFO (Found_potential_files 2);
     Loadtxt "extrinsics/001_0.txt"; Log INFO (Loaded_extrinsics_for "001_0");
     Loadtxt "extrinsics/000_0.txt"; Log INFO (Loaded_extrinsics_for "000_0");
     Log INFO (Loaded_extrinsics_files 2 2)].
Proof.
  apply (X3_every_txt_file_is_read_once_in_listing_order
           "extrinsics" two_frames two_frames_extrinsics
           ["001_0.txt"; "000_0.txt"; "notes.md"]).
  - vm_compute; reflexivity.
  - vm_compute. discriminate.
  - vm_compute; reflexivity.
Defined.

Lemma X4_witness : drop_last4 "000_0.txt" ++ ".txt" = "000_0.txt".
Proof.
  apply (proj2 (X4_key_and_file_name_round_trip "000_0" "000_0.txt")).
  vm_compute; reflexivity.
Defined.

Lemma X5_witness : endswith "000_0" "_0" = true.
Proof.
  apply (X5_suffix_test_agrees_with_camera_id "000_0" "000" "0").
  - vm_compute; reflexivity.
  - reflexivity.
Defined.

Lemma X7_witness : (run None true empty_directory).1 = Returned false.
Proof.
  apply (X7_returns_false_exactly_without_txt_files Exact.matmul Exact.inv
           "extrinsics" "intrinsics" "transforms.json" None ".jpg" 1600 900 "0"
           false true empty_directory []).
  - vm_compute; reflexivity.
  - reflexivity.
Defined.

Lemma X8_witness :
  exists doc,
    document_at (run None true two_frames).2 "transforms.json" = Some doc /\
    globals doc = None /\
    map per_frame (frames doc) =
      [Some (FrameIntrinsics (q 500) (q 500) (q 320) (q 240) 1600 900);
       Some (FrameIntrinsics (q 500) (q 500) (q 320) (q 240) 1600 900)].
Proof.
  destruct (X8_each_frame_carries_the_intrinsics_of_its_camera Exact.matmul Exact.inv
              "extrinsics" "intrinsics" "transforms.json" None ".jpg" 1600 900 "0"
              false two_frames two_frames_extrinsics)
    as (doc & Hdoc & Hg & _).
  - vm_compute; reflexivity.
  - vm_compute; reflexivity.
  - exists doc. split; [exact Hdoc|]. split; [exact Hg|].
    assert (document_at (run None true two_frames).2 "transforms.json"
            = Some doc) as Hdoc' by exact Hdoc.
    vm_compute in Hdoc'. injection Hdoc' as <-. vm_compute. reflexivity.
Defined.

Lemma X9_witness :
  (exists e, (run None true three_part_key).1 = Raised e) /\
  fs_equiv (run None true three_part_key).2 three_part_key.
Proof.
  apply (X9_key_that_does_not_split_in_two_is_fatal Exact.matmul Exact.inv
           "extrinsics" "intrinsics" "transforms.json" None ".jpg" 1600 900 "0"
           false three_part_key three_part_key_extrinsics "000_1_0").
  - vm_compute; reflexivity.
  - vm_compute. eauto.
  - vm_compute; reflexivity.
Defined.

Lemma X10_witness :
  (run None true singular_reference).1 = Raised LinAlgError /\
  fs_equiv (run None true singular_reference).2 singular_reference.
Proof.
  destruct (X10_singular_reference_is_fatal Exact.matmul Exact.inv
              "extrinsics" "intrinsics" "transforms.json" None ".jpg" 1600 900 "0"
              false singular_reference singular_reference_extrinsics zeros44)
    as (_ & Hfs & Hraise).
  - vm_compute; reflexivity.
  - vm_compute; reflexivity.
  - vm_compute; reflexivity.
  - split; [|exact Hfs]. apply (Hraise two_frames_intrinsics).
    vm_compute; reflexivity.
Defined.



Lemma X13_witness :
  two_frames_intrinsics !! "1" = None /\
  exists oi, two_frames_intrinsics !! "0" = Some oi /\ oi <> None.
Proof.
  assert ((load_all_intrinsics "intrinsics" 1600 900 {[ "0" ]} two_frames).1
          = Returned two_frames_intrinsics) as Hrun by (vm_compute; reflexivity).
  destruct (X13_all_intrinsics_has_one_entry_per_camera
              "intrinsics" 1600 900 {[ "0" ]} two_frames two_frames_intrinsics
              Hrun "1") as [_ Hout].
  destruct (X13_all_intrinsics_has_one_entry_per_camera
              "intrinsics" 1600 900 {[ "0" ]} two_frames two_frames_intrinsics
              Hrun "0") as [Hin _].
  split; [apply Hout; intros H%elem_of_singleton; discriminate|].
  destruct Hin as (oi & Hoi & Hnone); [by apply elem_of_singleton|].
  exists oi. split; [exact Hoi|]. intros Heq. apply Hnone in Heq as [_ Hf].
  vm_compute in Hf. discriminate.
Defined.

Lemma X15_witness :
  (main Exact.matmul Exact.inv single_camera_args two_frames).1 <> Returned 0%Z /\
  fs_equiv (main Exact.matmul Exact.inv single_camera_args two_frames).2 two_frames.
Proof.
  apply (X15_main_without_multi_camera_never_succeeds Exact.matmul Exact.inv
           single_camera_args two_frames).
  reflexivity.
Defined.

Lemma X16_witness :
  convert_cameras_to_transforms Exact.zero Exact.one
    "cameras.json" "transforms.json" no_cameras =
    (Raised ValueError_empty_cameras,
     World (fs_dirs no_cameras) (fs_files no_cameras) [JsonLoad "cameras.json"]).
Proof.
  apply (X16_empty_cameras_list_is_refused Exact.zero Exact.one
           "cameras.json" "transforms.json" no_cameras).
  vm_compute; reflexivity.
Defined.

Lemma X18_witness :
  exists doc,
    document_at
      (convert_cameras_to_transforms Exact.zero Exact.one
         "cameras.json" "transforms.json" cameras_file).2 "transforms.json" = Some doc /\
    globals doc = Some (GlobalIntrinsics (q 500) (q 510) 640 480) /\
    Forall2 (fun cam fr =>
               file_path fr = "images/" ++ img_name cam ++ ".jpg" /\
               per_frame fr = None)
            [one_camera] (frames doc).
Proof.
  apply (X18_globals_of_first_record_and_paths_in_input_order Exact.zero Exact.one
           "cameras.json" "transforms.json" cameras_file one_camera []).
  - vm_compute; reflexivity.
  - vm_compute; reflexivity.
Defined.

Lemma X19_witness :
  (exists e, (convert_cameras_to_transforms Exact.zero Exact.one
                "cameras.json" "transforms.json" flat_position).1 = Raised e) /\
  fs_equiv (convert_cameras_to_transforms Exact.zero Exact.one
              "cameras.json" "transforms.json" flat_position).2 flat_position.
Proof.
  apply (X19_position_of_wrong_length_is_fatal Exact.zero Exact.one
           "cameras.json" "transforms.json" flat_position
           [one_camera; flat_camera] flat_camera 2 [q 7; q 8]).
  - vm_compute; reflexivity.
  - right. left.
  - vm_compute; reflexivity.
  - lia.
  - lia.
Defined.

End MoreRuns.
